(** * Live presence and fleet merge of the bus tracker

    A shallow embedding of the location-sharing hook
    ([src/hooks/useLocationSharing.js]), the location and bus services
    ([src/lib/locationService.js], [src/lib/busService.js]) and the map
    component ([BusMap], in [src/App.jsx]), with the properties the
    specification states about them.

    Conventions.
    - A numeric field is named by the rational ([Qc]) that is its value;
      [undefined] and [NaN] are kept as separate values because the code
      tests coordinates for truthiness.
    - Arithmetic on numbers is that of JavaScript: binary64, every
      operation rounded to nearest with ties to even ([SpecFloat], with 53
      bits of precision).  Its operands and results are binary64 values
      ([Js.Double]); a field enters it through [Js.toDouble].
    - Times are integers: milliseconds for [Date], seconds for the store's
      timestamps.
    - An [await] is a point where the environment supplies an outcome; the
      outcome is an argument of the embedded function. *)

From Stdlib Require Import ZArith QArith Qcanon SpecFloat.
From stdpp Require Import base decidable option list strings gmap.

Local Open Scope string_scope.
Local Open Scope Z_scope.

(** ** JavaScript values used by the code *)

Module Js.

(** A value read from a numeric field: absent, not-a-number, or a number. *)
Inductive Number :=
| Undefined
| NaN
| Num (q : Qc).

(** [if (x)] on such a value: [0], [NaN] and [undefined] are falsy. *)
Definition truthy (x : Number) : bool :=
  match x with
  | Num q => negb (Qc_eq_bool q 0%Qc)
  | _ => false
  end.

(** A number as the arithmetic has it: a binary64 value, which is finite,
    a signed zero, an infinity or not-a-number. *)
Definition Double : Type := spec_float.

Definition prec : Z := 53.
Definition emax : Z := 1024.

(** The binary64 value of a rational [n / d]: the quotient of the two
    integers, rounded once, to nearest with ties to even.  A rational that
    is a binary64 value is left as it is; a decimal literal such as
    [40.7128] gets the value the program holds for it. *)
Definition double (q : Qc) : Double :=
  match Qnum q with
  | Z0 => S754_zero false
  | Zpos n => SFdiv prec emax (S754_finite false n 0) (S754_finite false (Qden q) 0)
  | Zneg n => SFdiv prec emax (S754_finite true n 0) (S754_finite false (Qden q) 0)
  end.

(** The number that a field value is in arithmetic ([undefined] converts
    to [NaN]). *)
Definition toDouble (x : Number) : Double :=
  match x with
  | Num q => double q
  | _ => S754_nan
  end.

(** [a + b] on numbers. *)
Definition add (a b : Double) : Double := SFadd prec emax a b.

(** [a / n] for an array length [n]. *)
Definition divLength (a : Double) (n : nat) : Double :=
  SFdiv prec emax a (binary_normalize prec emax (Z.of_nat n) 0 false).

(** [s || d] on an optional string: the empty string is falsy too. *)
Definition strOr (s : option string) (d : string) : string :=
  match s with
  | Some x => if String.eqb x "" then d else x
  | None => d
  end.

(** [x || 0] on a nullable number. *)
Definition numOrZero (x : option Qc) : Qc := default 0%Qc x.

(** A decimal literal [n / 10^4]. *)
Definition dec4 (n : Z) : Qc := Q2Qc (Qmake n 10000).

End Js.

(** ** The fleet subscription: [src/lib/busService.js] *)

Module BusService.

(** [lastUpdated] is a store timestamp in real documents and a [Date] in
    the demo entries; only the former has a [seconds] field. *)
Inductive TimeValue :=
| StoreTimestamp (seconds : Z)
| JsDate (ms : Z).

(** [{ id: doc.id, ...doc.data() }] *)
Record Bus := {
  bus_id : string;
  bus_busId : option string;
  bus_latitude : Js.Number;
  bus_longitude : Js.Number;
  bus_route : option string;
  bus_status : option string;
  bus_speed : option Z;
  bus_heading : option Z;
  bus_lastUpdated : option TimeValue
}.

(** [bus.latitude && bus.longitude] *)
Definition hasCoordinates (b : Bus) : bool :=
  Js.truthy (bus_latitude b) && Js.truthy (bus_longitude b).

(** [a.lastUpdated?.seconds || 0] *)
Definition sortKey (b : Bus) : Z :=
  match bus_lastUpdated b with
  | Some (StoreTimestamp s) => s
  | _ => 0
  end.

(** [buses.sort((a, b) => bTime - aTime)]: a stable sort, newest first.
    [sortByTime] inserts from the right end, so the inserted element
    precedes in the array everything it is inserted into, and goes in
    front of the first element that is not newer. *)
Fixpoint insertByTime (x : Bus) (l : list Bus) : list Bus :=
  match l with
  | [] => [x]
  | y :: l' =>
      if sortKey y <=? sortKey x then x :: y :: l'
      else y :: insertByTime x l'
  end.

Definition sortByTime (l : list Bus) : list Bus :=
  foldr (fun x acc => insertByTime x acc) [] l.

Definition demoBus (n : string) (lat lng : Z) (route status : string)
    (speed heading : Z) (now : Z) : Bus :=
  {| bus_id := "demo-bus-" ++ n;
     bus_busId := Some ("B00" ++ n);
     bus_latitude := Js.Num (Js.dec4 lat);
     bus_longitude := Js.Num (Js.dec4 lng);
     bus_route := Some route;
     bus_status := Some status;
     bus_speed := Some speed;
     bus_heading := Some heading;
     bus_lastUpdated := Some (JsDate now) |}.

Definition demoBus1 := demoBus "1" 407128 (-740060) "Route 1 - Downtown" "active" 25 90.
Definition demoBus2 := demoBus "2" 407589 (-739851) "Route 2 - Uptown" "active" 30 180.
Definition demoBus3 := demoBus "3" 407505 (-739934) "Route 3 - Crosstown" "maintenance" 0 0.

(** The literal of the snapshot handler; [now] is [new Date()]. *)
Definition demoBuses (now : Z) : list Bus :=
  [demoBus1 now; demoBus2 now; demoBus3 now].

(** The literal of the error handler. *)
Definition errorDemoBuses (now : Z) : list Bus := [demoBus1 now].

(** What the subscription delivers: a snapshot or a listener error. *)
Inductive Delivery :=
| Snapshot (docs : list Bus)
| ListenError (message : string).

(** The snapshot handler of [subscribeToBusLocations]: the argument it
    passes to [callback]. *)
Definition onSnapshot (now : Z) (docs : list Bus) : list Bus :=
  let buses := filter (fun b => hasCoordinates b = true) docs in
  match buses with
  | [] => demoBuses now
  | _ => sortByTime buses
  end.

(** The error handler of [subscribeToBusLocations]. *)
Definition onError (now : Z) (message : string) : list Bus :=
  errorDemoBuses now.

(** [subscribeToBusLocations(callback)]: every delivery calls [callback]
    exactly once, with this argument. *)
Definition subscribeToBusLocations (now : Z) (d : Delivery) : list Bus :=
  match d with
  | Snapshot docs => onSnapshot now docs
  | ListenError m => onError now m
  end.

End BusService.

(** ** The map component: [BusMap] in [src/App.jsx] *)

Module BusMap.
Import BusService.

(** An entry of [driverLocations], as [listenToDriverLocations] builds it
    from a presence document. [drv_timestamp] is [None] while the store has
    not assigned the time yet. *)
Record Driver := {
  drv_id : string;
  drv_displayName : option string;
  drv_busNumber : option string;
  drv_route : option string;
  drv_latitude : Js.Number;
  drv_longitude : Js.Number;
  drv_timestamp : option Z;
  drv_lastSeen : option Z
}.

(** [const defaultCenter = [40.7128, -74.0060]] *)
Definition defaultCenter : Js.Double * Js.Double :=
  (Js.double (Js.dec4 407128), Js.double (Js.dec4 (-740060))).

(** The two fields [getMapCenter] reads of a bus or of a driver. *)
Record Location := { latitude : Js.Number; longitude : Js.Number }.

Definition busLocation (b : Bus) : Location :=
  {| latitude := bus_latitude b; longitude := bus_longitude b |}.

Definition driverLocation (d : Driver) : Location :=
  {| latitude := drv_latitude d; longitude := drv_longitude d |}.

(** [driver.latitude && driver.longitude] *)
Definition driverHasCoordinates (d : Driver) : bool :=
  Js.truthy (drv_latitude d) && Js.truthy (drv_longitude d).

(** [allLocations] of [getMapCenter]. *)
Definition allLocations (buses : list Bus) (driverLocations : list Driver)
    : list Location :=
  (busLocation <$> filter (fun b => hasCoordinates b = true) buses)
  ++ (driverLocation <$> filter (fun d => driverHasCoordinates d = true) driverLocations).

(** [arr.reduce((sum, loc) => sum + f(loc), 0)] *)
Definition reduceSum (f : Location -> Js.Number) (l : list Location) : Js.Double :=
  fold_left (fun sum loc => Js.add sum (Js.toDouble (f loc))) l (Js.double 0%Qc).

Definition getMapCenter (buses : list Bus) (driverLocations : list Driver)
    : Js.Double * Js.Double :=
  let all := allLocations buses driverLocations in
  match all with
  | [] => defaultCenter
  | _ =>
      let avgLat := Js.divLength (reduceSum latitude all) (length all) in
      let avgLng := Js.divLength (reduceSum longitude all) (length all) in
      (avgLat, avgLng)
  end.

(** [driver.timestamp && (new Date() - new Date(driver.timestamp.seconds * 1000)) < 300000];
    [now] is [new Date()] in milliseconds. *)
Definition isRecent (now : Z) (d : Driver) : bool :=
  match drv_timestamp d with
  | Some seconds => now - seconds * 1000 <? 300000
  | None => false
  end.

(** [createBusIcon(status)] and [createDriverIcon(isActive)], by their colour. *)
Definition createBusIcon (status : option string) : string :=
  match status with
  | Some "active" | None => "#2563eb"
  | Some _ => "#6b7280"
  end.

Definition createDriverIcon (isActive : bool) : string :=
  if isActive then "#16a34a" else "#dc2626".

Record Marker := {
  key : string;
  position : Js.Number * Js.Number;
  icon : string
}.

(** The body of [buses.map(...)]: [None] is the [null] the guard returns. *)
Definition busMarker (bus : Bus) : option Marker :=
  if negb (Js.truthy (bus_latitude bus)) || negb (Js.truthy (bus_longitude bus))
  then None
  else Some {| key := "bus-" ++ bus_id bus;
               position := (bus_latitude bus, bus_longitude bus);
               icon := createBusIcon (bus_status bus) |}.

(** The body of [driverLocations.map(...)]. *)
Definition driverMarker (now : Z) (driver : Driver) : option Marker :=
  if negb (Js.truthy (drv_latitude driver)) || negb (Js.truthy (drv_longitude driver))
  then None
  else Some {| key := "driver-" ++ drv_id driver;
               position := (drv_latitude driver, drv_longitude driver);
               icon := createDriverIcon (isRecent now driver) |}.

(** The children of the map container: the bus markers, then the driver
    markers, a slot for each entry. *)
Definition markers (now : Z) (buses : list Bus) (driverLocations : list Driver)
    : list (option Marker) :=
  (busMarker <$> buses) ++ (driverMarker now <$> driverLocations).

End BusMap.

(** ** Location sharing: [src/lib/locationService.js] and
       [src/hooks/useLocationSharing.js] *)

Module Sharing.

(** *** The browser's geolocation interface *)

Module Geo.
(** [GeolocationCoordinates]; [heading] and [speed] may be [null]. *)
Record Coords := {
  latitude : Qc;
  longitude : Qc;
  accuracy : Qc;
  heading : option Qc;
  speed : option Qc
}.

Record Position := { coords : Coords; timestamp : Z }.

(** An error object. A [GeolocationPositionError] has a numeric [code]
    and the three code constants; an object made by [new Error(...)]
    has none of them, so reading them gives [undefined] ([None]). *)
Record Error := {
  message : string;
  code : option Z;
  PERMISSION_DENIED : option Z;
  POSITION_UNAVAILABLE : option Z;
  TIMEOUT : option Z
}.

Definition positionError (c : Z) (msg : string) : Error :=
  {| message := msg; code := Some c;
     PERMISSION_DENIED := Some 1; POSITION_UNAVAILABLE := Some 2; TIMEOUT := Some 3 |}.

Definition newError (msg : string) : Error :=
  {| message := msg; code := None;
     PERMISSION_DENIED := None; POSITION_UNAVAILABLE := None; TIMEOUT := None |}.

(** [a === b] on two such fields. *)
Definition strictEq (a b : option Z) : bool := bool_decide (a = b).

(** What the device answers to a position request. *)
Inductive Outcome :=
| Ok (p : Position)
| Failed (c : Z) (msg : string).

Record Options := {
  enableHighAccuracy : bool;
  timeout : Z;
  maximumAge : Z
}.
End Geo.

(** [navigator]: whether it has [geolocation], and whether the user agent
    matches the mobile pattern. *)
Record Browser := { hasGeolocation : bool; isMobile : bool }.

(** *** The store *)

(** Field values of a presence document. [VServerTimestamp] is the
    [serverTimestamp()] sentinel, replaced by the store when it commits. *)
Inductive Value :=
| VString (s : string)
| VNumber (q : Qc)
| VBool (b : bool)
| VTimestamp (seconds : Z)
| VServerTimestamp.

Abbreviation Doc := (gmap string Value).

(** What the store answers to a write: committed at a server time, or
    rejected with a message. *)
Inductive StoreOutcome :=
| Committed (serverTime : Z)
| Rejected (msg : string).

(** The store assigns the time at commit. *)
Definition commit (serverTime : Z) (data : Doc) : Doc :=
  (fun v => match v with VServerTimestamp => VTimestamp serverTime | _ => v end) <$> data.

(** *** The hook's context and state *)

Record User := { uid : string; email : string }.
Record DriverInfo := { busNumber : option string; route : option string }.
Record Profile := { displayName : option string; driverInfo : option DriverInfo }.

(** What [useAuth] and [useUserRole] give the hook. *)
Record Ctx := {
  user : option User;
  userProfile : option Profile;
  isDriver : bool;
  isVerified : bool
}.

(** The [useState] cells and the two refs. *)
Record HookState := {
  isSharing : bool;
  loading : bool;
  error : string;
  locationPermission : string;
  currentPosition : option Geo.Position;
  accuracy : option Qc;
  watchIdRef : option Z;
  updateIntervalRef : option Z
}.

Definition initialHook : HookState :=
  {| isSharing := false; loading := false; error := "";
     locationPermission := "unknown"; currentPosition := None;
     accuracy := None; watchIdRef := None; updateIntervalRef := None |}.

(** Calls that leave the program. *)
Inductive Effect :=
| GetCurrentPosition (options : Geo.Options)
| WatchPosition (id : Z) (options : Geo.Options)
| ClearWatch (id : Z)
| ClearInterval (id : Z)
| SetDoc (userId : string) (merge : bool) (data : Doc)
| DeleteDoc (userId : string).

(** The hook, the [driverLocations] collection, the watches registered
    with the device (each with the context its callbacks closed over), the
    device's next watch id, the update writes that are issued and not yet
    resolved, and the log of outside calls, oldest first. *)
Record World := {
  hook : HookState;
  driverLocations : gmap string Doc;
  watches : gmap Z Ctx;
  nextWatchId : Z;
  inflight : list (string * Doc);
  effects : list Effect
}.

Definition initialWorld : World :=
  {| hook := initialHook; driverLocations := ∅; watches := ∅;
     nextWatchId := 1; inflight := []; effects := [] |}.

(** *** A state monad over the world *)

Definition M (A : Type) : Type := World -> A * World.

Definition ret {A} (a : A) : M A := fun w => (a, w).
Definition bind {A B} (m : M A) (k : A -> M B) : M B :=
  fun w => let (a, w') := m w in k a w'.

Declare Scope sharing_scope.
Delimit Scope sharing_scope with sharing.
Notation "'let*' x := m 'in' k" := (bind m (fun x => k))
  (at level 10, x name, m at level 100, k at level 200) : sharing_scope.
Notation "m ;; k" := (bind m (fun _ => k))
  (at level 100, k at level 200, right associativity) : sharing_scope.
Local Open Scope sharing_scope.

Definition exec {A} (m : M A) (w : World) : World := snd (m w).
Definition result {A} (m : M A) (w : World) : A := fst (m w).

Definition get {A} (f : World -> A) : M A := fun w => (f w, w).

Definition modifyHook (f : HookState -> HookState) : M unit :=
  fun w => (tt, {| hook := f (hook w); driverLocations := driverLocations w;
                   watches := watches w; nextWatchId := nextWatchId w;
                   inflight := inflight w; effects := effects w |}).

Definition modifyStore (f : gmap string Doc -> gmap string Doc) : M unit :=
  fun w => (tt, {| hook := hook w; driverLocations := f (driverLocations w);
                   watches := watches w; nextWatchId := nextWatchId w;
                   inflight := inflight w; effects := effects w |}).

Definition modifyWatches (f : gmap Z Ctx -> gmap Z Ctx) : M unit :=
  fun w => (tt, {| hook := hook w; driverLocations := driverLocations w;
                   watches := f (watches w); nextWatchId := nextWatchId w;
                   inflight := inflight w; effects := effects w |}).

Definition modifyInflight (f : list (string * Doc) -> list (string * Doc)) : M unit :=
  fun w => (tt, {| hook := hook w; driverLocations := driverLocations w;
                   watches := watches w; nextWatchId := nextWatchId w;
                   inflight := f (inflight w); effects := effects w |}).

(** The device hands out the next watch id. *)
Definition freshWatchId : M Z :=
  fun w => (nextWatchId w,
            {| hook := hook w; driverLocations := driverLocations w;
               watches := watches w; nextWatchId := nextWatchId w + 1;
               inflight := inflight w; effects := effects w |}).

Definition emit (e : Effect) : M unit :=
  fun w => (tt, {| hook := hook w; driverLocations := driverLocations w;
                   watches := watches w; nextWatchId := nextWatchId w;
                   inflight := inflight w; effects := (effects w ++ [e])%list |}).

Definition when (b : bool) (m : M unit) : M unit := if b then m else ret tt.

(** The state setters. *)
Definition setIsSharing (v : bool) : M unit :=
  modifyHook (fun h =>
    {| isSharing := v; loading := loading h; error := error h;
       locationPermission := locationPermission h; currentPosition := currentPosition h;
       accuracy := accuracy h; watchIdRef := watchIdRef h;
       updateIntervalRef := updateIntervalRef h |}).

Definition setLoading (v : bool) : M unit :=
  modifyHook (fun h =>
    {| isSharing := isSharing h; loading := v; error := error h;
       locationPermission := locationPermission h; currentPosition := currentPosition h;
       accuracy := accuracy h; watchIdRef := watchIdRef h;
       updateIntervalRef := updateIntervalRef h |}).

Definition setError (v : string) : M unit :=
  modifyHook (fun h =>
    {| isSharing := isSharing h; loading := loading h; error := v;
       locationPermission := locationPermission h; currentPosition := currentPosition h;
       accuracy := accuracy h; watchIdRef := watchIdRef h;
       updateIntervalRef := updateIntervalRef h |}).

Definition setLocationPermission (v : string) : M unit :=
  modifyHook (fun h =>
    {| isSharing := isSharing h; loading := loading h; error := error h;
       locationPermission := v; currentPosition := currentPosition h;
       accuracy := accuracy h; watchIdRef := watchIdRef h;
       updateIntervalRef := updateIntervalRef h |}).

Definition setCurrentPosition (v : option Geo.Position) : M unit :=
  modifyHook (fun h =>
    {| isSharing := isSharing h; loading := loading h; error := error h;
       locationPermission := locationPermission h; currentPosition := v;
       accuracy := accuracy h; watchIdRef := watchIdRef h;
       updateIntervalRef := updateIntervalRef h |}).

Definition setAccuracy (v : option Qc) : M unit :=
  modifyHook (fun h =>
    {| isSharing := isSharing h; loading := loading h; error := error h;
       locationPermission := locationPermission h; currentPosition := currentPosition h;
       accuracy := v; watchIdRef := watchIdRef h;
       updateIntervalRef := updateIntervalRef h |}).

Definition setWatchIdRef (v : option Z) : M unit :=
  modifyHook (fun h =>
    {| isSharing := isSharing h; loading := loading h; error := error h;
       locationPermission := locationPermission h; currentPosition := currentPosition h;
       accuracy := accuracy h; watchIdRef := v;
       updateIntervalRef := updateIntervalRef h |}).

Definition setUpdateIntervalRef (v : option Z) : M unit :=
  modifyHook (fun h =>
    {| isSharing := isSharing h; loading := loading h; error := error h;
       locationPermission := locationPermission h; currentPosition := currentPosition h;
       accuracy := accuracy h; watchIdRef := watchIdRef h;
       updateIntervalRef := v |}).

(** [if (ref.current)] on a ref that holds [null] or an id. *)
Definition refSet (r : option Z) : bool :=
  match r with
  | Some id => negb (id =? 0)
  | None => false
  end.

(** [if (ref.current) f(ref.current)] *)
Definition whenRef (r : option Z) (f : Z -> M unit) : M unit :=
  match r with
  | Some id => if refSet r then f id else ret tt
  | None => ret tt
  end.

(** *** [locationService.js] *)

(** The objects the service functions resolve to. *)
Record Result := {
  success : bool;
  res_error : option string;
  res_position : option Geo.Position
}.

Definition succeeded : Result :=
  {| success := true; res_error := None; res_position := None |}.
Definition succeededAt (p : Geo.Position) : Result :=
  {| success := true; res_error := None; res_position := Some p |}.
Definition failed (msg : option string) : Result :=
  {| success := false; res_error := msg; res_position := None |}.

Definition notSupported : string := "Geolocation is not supported by this browser".

(** The [switch (error.code)] of both error handlers. *)
Definition errorMessage (error : Geo.Error) : string :=
  if Geo.strictEq (Geo.code error) (Geo.PERMISSION_DENIED error)
  then "Location access denied by user"
  else if Geo.strictEq (Geo.code error) (Geo.POSITION_UNAVAILABLE error)
  then "Location information unavailable"
  else if Geo.strictEq (Geo.code error) (Geo.TIMEOUT error)
  then "Location request timed out"
  else "Unknown location error".

(** [getCurrentPosition(options)]: the promise resolves ([inl]) or rejects
    with an [Error] carrying the message ([inr]). Every caller passes the
    three options, so the spread replaces all the defaults. *)
Definition getCurrentPosition (br : Browser) (options : Geo.Options)
    (answer : Geo.Outcome) : M (Geo.Position + string) :=
  if negb (hasGeolocation br) then ret (inr notSupported)
  else
    emit (GetCurrentPosition options) ;;
    match answer with
    | Geo.Ok position => ret (inl position)
    | Geo.Failed c msg => ret (inr (errorMessage (Geo.positionError c msg)))
    end.

(** The [driverInfo] argument of [startLocationSharing]. *)
Record ShareInfo := {
  info_displayName : option string;
  info_busNumber : option string;
  info_route : option string
}.

Definition locationData (userId userEmail : string) (driverInfo : ShareInfo)
    (position : Geo.Position) : Doc :=
  list_to_map
    [ ("userId", VString userId);
      ("email", VString userEmail);
      ("displayName", VString (Js.strOr (info_displayName driverInfo) "Driver"));
      ("busNumber", VString (Js.strOr (info_busNumber driverInfo) "Unknown"));
      ("route", VString (Js.strOr (info_route driverInfo) "Unknown Route"));
      ("latitude", VNumber (Geo.latitude (Geo.coords position)));
      ("longitude", VNumber (Geo.longitude (Geo.coords position)));
      ("accuracy", VNumber (Geo.accuracy (Geo.coords position)));
      ("heading", VNumber (Js.numOrZero (Geo.heading (Geo.coords position))));
      ("speed", VNumber (Js.numOrZero (Geo.speed (Geo.coords position))));
      ("timestamp", VServerTimestamp);
      ("isActive", VBool true);
      ("lastSeen", VServerTimestamp);
      ("createdAt", VServerTimestamp) ].

(** [startLocationSharing(userId, userEmail, driverInfo)]; the write is a
    [setDoc] without merge, so it replaces the document. *)
Definition startLocationSharing (br : Browser) (userId userEmail : string)
    (driverInfo : ShareInfo)
    (pos : Geo.Outcome) (wr : StoreOutcome) : M Result :=
  if negb (hasGeolocation br)
  then ret (failed (Some (Js.strOr (Some notSupported) "Failed to start location sharing")))
  else
    let* r := getCurrentPosition br
                {| Geo.enableHighAccuracy := true; Geo.timeout := 15000; Geo.maximumAge := 10000 |}
                pos in
    match r with
    | inr msg => ret (failed (Some (Js.strOr (Some msg) "Failed to start location sharing")))
    | inl position =>
        let data := locationData userId userEmail driverInfo position in
        emit (SetDoc userId false data) ;;
        match wr with
        | Committed t =>
            modifyStore (fun st => <[userId := commit t data]> st) ;;
            ret (succeededAt position)
        | Rejected msg =>
            ret (failed (Some (Js.strOr (Some msg) "Failed to start location sharing")))
        end
    end.

Definition updateData (position : Geo.Position) : Doc :=
  list_to_map
    [ ("latitude", VNumber (Geo.latitude (Geo.coords position)));
      ("longitude", VNumber (Geo.longitude (Geo.coords position)));
      ("accuracy", VNumber (Geo.accuracy (Geo.coords position)));
      ("heading", VNumber (Js.numOrZero (Geo.heading (Geo.coords position))));
      ("speed", VNumber (Js.numOrZero (Geo.speed (Geo.coords position))));
      ("timestamp", VServerTimestamp);
      ("lastSeen", VServerTimestamp);
      ("isActive", VBool true) ].

(** [setDoc(ref, data, { merge: true })] at commit: the fields of [data]
    replace those of the document, the others stay; an absent document is
    created from [data] alone. *)
Definition mergeDoc (userId : string) (data : Doc) (st : gmap string Doc) : gmap string Doc :=
  <[userId := data ∪ default ∅ (st !! userId)]> st.

(** [updateDriverLocation(userId, position)] up to its [await]: the write
    is handed to the store client and is in flight. *)
Definition updateDriverLocation_issue (userId : string) (position : Geo.Position) : M unit :=
  emit (SetDoc userId true (updateData position)) ;;
  modifyInflight (fun q => (q ++ [(userId, updateData position)])%list).

(** [updateDriverLocation] from its [await] on, for the write [w]. *)
Definition updateDriverLocation_settle (w : string * Doc) (o : StoreOutcome) : M Result :=
  match o with
  | Committed t =>
      modifyStore (mergeDoc (fst w) (commit t (snd w))) ;;
      ret succeeded
  | Rejected msg =>
      ret (failed (Some (Js.strOr (Some msg) "Failed to update location")))
  end.

(** [stopLocationSharing(userId)]; deleting an absent document commits. *)
Definition stopLocationSharing (userId : string) (del : StoreOutcome) : M Result :=
  emit (DeleteDoc userId) ;;
  match del with
  | Committed _ =>
      modifyStore (fun st => delete userId st) ;;
      ret succeeded
  | Rejected msg => ret (failed (Some msg))
  end.

(** [navigator.geolocation.clearWatch(id)] *)
Definition clearWatch (id : Z) : M unit :=
  emit (ClearWatch id) ;;
  modifyWatches (fun ws => delete id ws).

Definition clearInterval (id : Z) : M unit := emit (ClearInterval id).

(** [watchPosition(callback, errorCallback, options)]. The registration
    keeps the context [ctx] that the two callbacks closed over; the error
    callback given to the device wraps [errorCallback] (see
    [watchErrorHandler]). Returns the watch id, or [null]. *)
Definition watchPosition (br : Browser) (ctx : Ctx) (errorCallback : Geo.Error -> M unit)
    (options : Geo.Options) : M (option Z) :=
  if negb (hasGeolocation br) then
    errorCallback (Geo.newError notSupported) ;;
    ret None
  else
    let* id := freshWatchId in
    emit (WatchPosition id options) ;;
    modifyWatches (fun ws => <[id := ctx]> ws) ;;
    ret (Some id).

(** The error handler [watchPosition] registers with the device: it
    passes on a new [Error] that has only the message. *)
Definition watchErrorHandler (errorCallback : Geo.Error -> M unit) (error : Geo.Error) : M unit :=
  errorCallback (Geo.newError (errorMessage error)).

Definition isLocationAvailable (br : Browser) : bool := hasGeolocation br.

(** [requestLocationPermission()] *)
Definition requestLocationPermission (br : Browser) (perm : Geo.Outcome) : M Result :=
  if negb (isLocationAvailable br) then ret (failed (Some notSupported))
  else
    let timeout := if isMobile br then 15000 else 10000 in
    let* r := getCurrentPosition br
                {| Geo.enableHighAccuracy := true; Geo.timeout := timeout; Geo.maximumAge := 0 |}
                perm in
    match r with
    | inl _ => ret succeeded
    | inr msg => ret (failed (Some msg))
    end.

(** *** [useLocationSharing.js] *)

(** [setError(result.error)]: an absent message shows as no message. *)
Definition errorText (msg : option string) : string := default "" msg.

(** [checkLocationPermission()], run on mount. [queried] is the state the
    permissions interface reports, [None] where it is not supported. *)
Definition checkLocationPermission (br : Browser) (queried : option string) : M unit :=
  if negb (isLocationAvailable br) then setLocationPermission "unavailable"
  else
    match queried with
    | Some state => setLocationPermission state
    | None => setLocationPermission "unknown"
    end.

(** [requestPermission()] *)
Definition requestPermission (br : Browser) (perm : Geo.Outcome) : M Result :=
  setLoading true ;;
  setError "" ;;
  let* result := requestLocationPermission br perm in
  let* r :=
    if success result then
      setLocationPermission "granted" ;;
      ret succeeded
    else
      setError (errorText (res_error result)) ;;
      setLocationPermission "denied" ;;
      ret (failed (res_error result)) in
  setLoading false ;;
  ret r.

(** [stopSharing()]. With no user, [user.uid] throws after the watch is
    cleared and the [catch] reports it. *)
Definition stopSharing (ctx : Ctx) (del : StoreOutcome) : M Result :=
  setLoading true ;;
  setError "" ;;
  let* watchId := get (fun w => watchIdRef (hook w)) in
  whenRef watchId (fun id => clearWatch id ;; setWatchIdRef None) ;;
  let* intervalId := get (fun w => updateIntervalRef (hook w)) in
  whenRef intervalId (fun id => clearInterval id ;; setUpdateIntervalRef None) ;;
  let* r :=
    match user ctx with
    | Some u =>
        let* result := stopLocationSharing (uid u) del in
        if success result then
          setIsSharing false ;;
          setCurrentPosition None ;;
          setAccuracy None ;;
          ret succeeded
        else
          setError (errorText (res_error result)) ;;
          ret (failed (res_error result))
    | None =>
        setError "Failed to stop location sharing" ;;
        ret (failed (Some "Failed to stop location sharing"))
    end in
  setLoading false ;;
  ret r.

(** The position callback of the watch, up to its [await]. *)
Definition positionCallback_issue (ctx : Ctx) (position : Geo.Position) : M unit :=
  setCurrentPosition (Some position) ;;
  setAccuracy (Some (Geo.accuracy (Geo.coords position))) ;;
  match user ctx with
  | Some u => updateDriverLocation_issue (uid u) position
  | None => setError "Location update failed"
  end.

(** The position callback from its [await] on, for the write [w]. *)
Definition positionCallback_settle (w : string * Doc) (o : StoreOutcome) : M unit :=
  let* updateResult := updateDriverLocation_settle w o in
  when (negb (success updateResult)) (setError "Failed to update location").

(** The error callback of the watch. It calls [stopSharing()] without
    waiting for it. *)
Definition errorCallback (ctx : Ctx) (del : StoreOutcome) (error : Geo.Error) : M unit :=
  setError ("Location tracking error: " ++ Geo.message error) ;;
  when (Geo.strictEq (Geo.code error) (Geo.PERMISSION_DENIED error))
       (stopSharing ctx del ;; ret tt).

Definition watchOptions : Geo.Options :=
  {| Geo.enableHighAccuracy := true; Geo.timeout := 10000; Geo.maximumAge := 5000 |}.

(** [startWatchingPosition()] *)
Definition startWatchingPosition (br : Browser) (ctx : Ctx) (del : StoreOutcome) : M unit :=
  let* watchId := get (fun w => watchIdRef (hook w)) in
  whenRef watchId clearWatch ;;
  let* id := watchPosition br ctx (errorCallback ctx del) watchOptions in
  setWatchIdRef id.

(** [locationPermission !== 'granted' && locationPermission !== 'unknown'] *)
Definition mustRequest (permission : string) : bool :=
  negb (String.eqb permission "granted") && negb (String.eqb permission "unknown").

(** [startSharing()]. [perm] answers the position request of
    [requestPermission], [pos] that of [startLocationSharing], [wr] the
    creating write; [del] is for the [stopSharing()] that the error
    callback starts when the watch cannot be registered. *)
Definition startSharing (br : Browser) (ctx : Ctx) (perm pos : Geo.Outcome)
    (wr del : StoreOutcome) : M Result :=
  if negb (isDriver ctx) || negb (isVerified ctx) then
    setError "Only verified drivers can share location" ;;
    ret (failed None)
  else
    match user ctx, userProfile ctx with
    | Some u, Some profile =>
        setLoading true ;;
        setError "" ;;
        let* permission := get (fun w => locationPermission (hook w)) in
        let* refused :=
          if mustRequest permission then
            let* permResult := requestPermission br perm in
            if negb (success permResult) then
              setLoading false ;;
              ret (Some permResult)
            else ret None
          else ret None in
        let* r :=
          match refused with
          | Some permResult => ret permResult
          | None =>
              let* result :=
                startLocationSharing br (uid u) (email u)
                  {| info_displayName := displayName profile;
                     info_busNumber := driverInfo profile ≫= busNumber;
                     info_route := driverInfo profile ≫= route |}
                  pos wr in
              if success result then
                setIsSharing true ;;
                setCurrentPosition (res_position result) ;;
                setAccuracy (Geo.accuracy <$> (Geo.coords <$> res_position result)) ;;
                startWatchingPosition br ctx del ;;
                ret succeeded
              else
                setError (errorText (res_error result)) ;;
                ret (failed (res_error result))
          end in
        setLoading false ;;
        ret r
    | _, _ =>
        setError "User not authenticated" ;;
        ret (failed None)
    end.

(** [toggleSharing()] *)
Definition toggleSharing (br : Browser) (ctx : Ctx) (perm pos : Geo.Outcome)
    (wr del : StoreOutcome) : M Result :=
  setError "" ;;
  let* sharing := get (fun w => isSharing (hook w)) in
  if sharing then stopSharing ctx del
  else startSharing br ctx perm pos wr del.

(** The cleanup of the unmount effect. *)
Definition unmountCleanup : M unit :=
  let* watchId := get (fun w => watchIdRef (hook w)) in
  whenRef watchId clearWatch ;;
  let* intervalId := get (fun w => updateIntervalRef (hook w)) in
  whenRef intervalId clearInterval.

(** *** Events *)

(** What can happen to a mounted hook, with the answers of the device and
    of the store that the handler waits for.  A call of [startSharing] or
    [stopSharing] and a watch error run their handler to its end; a
    delivered position runs the callback up to its write, and the write
    settles in an event of its own. *)
Inductive Event :=
| Mounted (queried : option string)
| PermissionChanged (state : string)
| Start (ctx : Ctx) (perm pos : Geo.Outcome) (wr del : StoreOutcome)
| Stop (ctx : Ctx) (del : StoreOutcome)
| Toggle (ctx : Ctx) (perm pos : Geo.Outcome) (wr del : StoreOutcome)
| PositionDelivered (id : Z) (position : Geo.Position)
| UpdateSettled (i : nat) (o : StoreOutcome)
| WatchFailed (id : Z) (c : Z) (msg : string) (del : StoreOutcome)
| Unmounted.

Definition step (br : Browser) (e : Event) (w : World) : World :=
  match e with
  | Mounted queried => exec (checkLocationPermission br queried) w
  | PermissionChanged state => exec (setLocationPermission state) w
  | Start ctx perm pos wr del => exec (startSharing br ctx perm pos wr del) w
  | Stop ctx del => exec (stopSharing ctx del) w
  | Toggle ctx perm pos wr del => exec (toggleSharing br ctx perm pos wr del) w
  | PositionDelivered id position =>
      match watches w !! id with
      | Some ctx => exec (positionCallback_issue ctx position) w
      | None => w
      end
  | UpdateSettled i o =>
      match inflight w !! i with
      | Some wr =>
          exec (modifyInflight (fun q => delete i q) ;; positionCallback_settle wr o) w
      | None => w
      end
  | WatchFailed id c msg del =>
      match watches w !! id with
      | Some ctx =>
          exec (watchErrorHandler (errorCallback ctx del) (Geo.positionError c msg)) w
      | None => w
      end
  | Unmounted => exec unmountCleanup w
  end.

Definition run (br : Browser) (es : list Event) (w : World) : World :=
  fold_left (fun w e => step br e w) es w.

End Sharing.

(** ** The presence listener: [listenToDriverLocations] *)

Module Presence.
Import Sharing BusMap.

Definition numberField (d : Doc) (k : string) : Js.Number :=
  match d !! k with
  | Some (VNumber q) => Js.Num q
  | _ => Js.Undefined
  end.

Definition stringField (d : Doc) (k : string) : option string :=
  match d !! k with
  | Some (VString s) => Some s
  | _ => None
  end.

Definition timeField (d : Doc) (k : string) : option Z :=
  match d !! k with
  | Some (VTimestamp s) => Some s
  | _ => None
  end.

(** [{ id: doc.id, ...doc.data() }], with the fields the map reads. *)
Definition driverOfDoc (id : string) (d : Doc) : Driver :=
  {| drv_id := id;
     drv_displayName := stringField d "displayName";
     drv_busNumber := stringField d "busNumber";
     drv_route := stringField d "route";
     drv_latitude := numberField d "latitude";
     drv_longitude := numberField d "longitude";
     drv_timestamp := timeField d "timestamp";
     drv_lastSeen := timeField d "lastSeen" |}.

(** [where('isActive', '==', true)] *)
Definition isActiveDoc (d : Doc) : bool :=
  match d !! "isActive" with
  | Some (VBool true) => true
  | _ => false
  end.

(** The argument of the listener's callback for a state of the
    collection (in the order the map enumerates its keys). *)
Definition listenToDriverLocations (st : gmap string Doc) : list Driver :=
  (fun kd => driverOfDoc (fst kd) (snd kd))
    <$> filter (fun kd => isActiveDoc (snd kd) = true) (map_to_list st).

End Presence.

(** ** Notions of the specification *)

Module Spec.
Import BusService BusMap.

(** The state of the session as a consumer reads it off the hook: sharing
    is Active; otherwise a handler at work is Busy, a reported error is
    Error, and none is Idle. *)
Inductive SessionState :=
| Idle
| Busy
| Active
| Error (reason : string).

Definition sessionState (h : Sharing.HookState) : SessionState :=
  if Sharing.isSharing h then Active
  else if Sharing.loading h then Busy
  else if String.eqb (Sharing.error h) "" then Idle
  else Error (Sharing.error h).

(** The staleness flag of a presence entry: not recent. *)
Definition isStale (now : Z) (d : Driver) : bool := negb (isRecent now d).

(** A coordinate is valid when it is a number other than zero. *)
Definition validNumber (x : Js.Number) : option Qc :=
  match x with
  | Js.Num q => if Qc_eq_bool q 0%Qc then None else Some q
  | _ => None
  end.

Definition validPair (lat lng : Js.Number) : option (Qc * Qc) :=
  match validNumber lat, validNumber lng with
  | Some a, Some b => Some (a, b)
  | _, _ => None
  end.

(** The coordinates of all entities that have valid ones: fleet, then
    presence. *)
Definition validCoordinates (buses : list Bus) (drivers : list Driver) : list (Qc * Qc) :=
  omap (fun b => validPair (bus_latitude b) (bus_longitude b)) buses
  ++ omap (fun d => validPair (drv_latitude d) (drv_longitude d)) drivers.

(** The sum of the values in the arithmetic of the program: added to
    zero one after the other, in the order of the list. *)
Definition sum (l : list Qc) : Js.Double :=
  fold_left (fun s x => Js.add s (Js.double x)) l (Js.double 0%Qc).

(** The arithmetic mean of a non-empty list: the sum divided by the number
    of values. *)
Definition mean (l : list Qc) : Js.Double :=
  Js.divLength (sum l) (length l).

(** The centroid viewpoint as the specification words it. *)
Definition centroid (buses : list Bus) (drivers : list Driver) : Js.Double * Js.Double :=
  match validCoordinates buses drivers with
  | [] => defaultCenter
  | cs => (mean (fst <$> cs), mean (snd <$> cs))
  end.

(** The locations that valid coordinate pairs stand for. *)
Definition locationsOf (cs : list (Qc * Qc)) : list Location :=
  (fun c => {| latitude := Js.Num (fst c); longitude := Js.Num (snd c) |}) <$> cs.

(** A coordinate that is exactly zero, or missing. *)
Definition zeroOrMissing (x : Js.Number) : Prop :=
  x = Js.Num 0%Qc \/ x = Js.Undefined.

End Spec.

(** ** Schedules *)

Module Schedule.
Import Sharing.

(** A turn: one handler run to its end before the next event is taken.
    For a delivered position that is the callback together with the
    settlement of the write it issued. *)
Inductive Turn :=
| TMounted (queried : option string)
| TPermissionChanged (state : string)
| TStart (ctx : Ctx) (perm pos : Geo.Outcome) (wr del : StoreOutcome)
| TStop (ctx : Ctx) (del : StoreOutcome)
| TToggle (ctx : Ctx) (perm pos : Geo.Outcome) (wr del : StoreOutcome)
| TPosition (id : Z) (position : Geo.Position) (o : StoreOutcome)
| TWatchFailed (id : Z) (c : Z) (msg : string) (del : StoreOutcome).

Definition events (t : Turn) : list Event :=
  match t with
  | TMounted queried => [Mounted queried]
  | TPermissionChanged state => [PermissionChanged state]
  | TStart ctx perm pos wr del => [Start ctx perm pos wr del]
  | TStop ctx del => [Stop ctx del]
  | TToggle ctx perm pos wr del => [Toggle ctx perm pos wr del]
  | TPosition id position o => [PositionDelivered id position; UpdateSettled 0 o]
  | TWatchFailed id c msg del => [WatchFailed id c msg del]
  end.

Definition turn (br : Browser) (t : Turn) (w : World) : World :=
  run br (events t) w.

Definition runTurns (br : Browser) (ts : list Turn) (w : World) : World :=
  fold_left (fun w t => turn br t w) ts w.

(** The context a turn's caller supplies, for the calls of the consumer. *)
Definition caller (t : Turn) : option Ctx :=
  match t with
  | TStart ctx _ _ _ _ | TStop ctx _ | TToggle ctx _ _ _ _ => Some ctx
  | _ => None
  end.

(** The turn is made on behalf of the driver [driverId], if of anyone. *)
Definition onBehalfOf (driverId : string) (t : Turn) : Prop :=
  forall ctx u, caller t = Some ctx -> user ctx = Some u -> uid u = driverId.

(** An event of the watch [id] under a store that settles the oldest
    write in flight first. *)
Definition inIssueOrder (id : Z) (e : Event) : Prop :=
  match e with
  | PositionDelivered id' _ => id' = id
  | UpdateSettled i _ => i = 0%nat
  | _ => False
  end.

(** The positions delivered by a list of events, in order. *)
Definition delivered (es : list Event) : list Geo.Position :=
  omap (fun e => match e with PositionDelivered _ p => Some p | _ => None end) es.

(** What the store does with the update for a position, given its answer. *)
Definition applyUpdate (userId : string) (st : gmap string Doc)
    (po : Geo.Position * StoreOutcome) : gmap string Doc :=
  match snd po with
  | Committed t => mergeDoc userId (commit t (updateData (fst po))) st
  | Rejected _ => st
  end.

(** The bookkeeping of a store that settles the oldest write in flight
    first: the writes settled so far, each position with the store's
    answer, in the order of settling, and the positions whose write is
    still in flight, oldest first.  A settlement with nothing in flight
    settles nothing. *)
Definition settleStep (s : list (Geo.Position * StoreOutcome) * list Geo.Position)
    (e : Event) : list (Geo.Position * StoreOutcome) * list Geo.Position :=
  match e with
  | PositionDelivered _ p => (fst s, (snd s ++ [p])%list)
  | UpdateSettled _ o =>
      match snd s with
      | [] => s
      | p :: rest => ((fst s ++ [(p, o)])%list, rest)
      end
  | _ => s
  end.

Definition settlement (es : list Event)
    : list (Geo.Position * StoreOutcome) * list Geo.Position :=
  fold_left settleStep es ([], []).

Definition settled (es : list Event) : list (Geo.Position * StoreOutcome) :=
  fst (settlement es).

Definition unsettled (es : list Event) : list Geo.Position :=
  snd (settlement es).

(** The last of the settled writes that the store committed, with the
    time it assigned. *)
Definition lastCommitted (l : list (Geo.Position * StoreOutcome))
    : option (Geo.Position * Z) :=
  last (omap (fun po => match snd po with
                        | Committed t => Some (fst po, t)
                        | Rejected _ => None
                        end) l).

(** What does not change when a handler leaves the session where it is. *)
Definition sameSession (w w' : World) : Prop :=
  driverLocations w' = driverLocations w
  /\ isSharing (hook w') = isSharing (hook w)
  /\ watchIdRef (hook w') = watchIdRef (hook w)
  /\ watches w' = watches w
  /\ nextWatchId w' = nextWatchId w
  /\ inflight w' = inflight w.

(** The watches left after [if (watchIdRef.current) clearWatch(...)]. *)
Definition watchesAfterClear (w : World) : gmap Z Ctx :=
  match watchIdRef (hook w) with
  | Some id => if refSet (Some id) then delete id (watches w) else watches w
  | None => watches w
  end.

(** The invariant of a session of the driver [driverId], between turns:
    the record is there exactly when the session is sharing; no write is
    in flight; a registered watch is the one the hook holds, belongs to
    the driver, and is registered only while sharing. *)
Definition sessionInvariant (driverId : string) (w : World) : Prop :=
  (is_Some (driverLocations w !! driverId) <-> isSharing (hook w) = true)
  /\ inflight w = []
  /\ 0 < nextWatchId w
  /\ (forall id, watchIdRef (hook w) = Some id -> 0 < id)
  /\ (forall id ctx, watches w !! id = Some ctx ->
        watchIdRef (hook w) = Some id
        /\ isSharing (hook w) = true
        /\ exists u, user ctx = Some u /\ uid u = driverId).

(** Serialized writes, as the specification words them: while a write is
    unresolved, a delivered position issues none. *)
Definition writesSerialized (br : Browser) : Prop :=
  forall (es : list Event) (id : Z) (p : Geo.Position),
    let w := run br es initialWorld in
    inflight w <> [] ->
    effects (step br (PositionDelivered id p) w) = effects w.

End Schedule.

(** ** Sample data *)

Module Examples.
Import BusService BusMap Sharing.

(** A whole number of degrees. *)
Definition deg (n : Z) : Js.Number := Js.Num (Q2Qc (inject_Z n)).

Definition busAt (id : string) (lat lng : Js.Number) : Bus :=
  {| bus_id := id; bus_busId := None; bus_latitude := lat; bus_longitude := lng;
     bus_route := None; bus_status := Some "active"; bus_speed := None;
     bus_heading := None; bus_lastUpdated := None |}.

Definition driverAt (id : string) (lat lng : Js.Number) (seconds : option Z) : Driver :=
  {| drv_id := id; drv_displayName := None; drv_busNumber := None; drv_route := None;
     drv_latitude := lat; drv_longitude := lng;
     drv_timestamp := seconds; drv_lastSeen := seconds |}.

Definition desktop : Browser := {| hasGeolocation := true; isMobile := false |}.

Definition ann : User := {| uid := "driver-ann"; email := "ann@example.org" |}.

Definition annProfile : Profile :=
  {| displayName := Some "Ann";
     driverInfo := Some {| busNumber := Some "12"; route := Some "Route 1" |} |}.

(** A verified driver, signed in. *)
Definition annCtx : Ctx :=
  {| user := Some ann; userProfile := Some annProfile;
     isDriver := true; isVerified := true |}.

Definition positionAt (lat lng : Z) (t : Z) : Geo.Position :=
  {| Geo.coords := {| Geo.latitude := Q2Qc (inject_Z lat);
                      Geo.longitude := Q2Qc (inject_Z lng);
                      Geo.accuracy := Q2Qc (inject_Z 5);
                      Geo.heading := None; Geo.speed := None |};
     Geo.timestamp := t |}.

Definition P1 : Geo.Position := positionAt 40 (-74) 1.
Definition P2 : Geo.Position := positionAt 41 (-73) 2.
Definition P3 : Geo.Position := positionAt 42 (-72) 3.

(** Ann has started sharing at [P1]; the store committed at time 100. *)
Definition sharingWorld : World :=
  run desktop [Start annCtx (Geo.Ok P1) (Geo.Ok P1) (Committed 100) (Committed 100)]
      initialWorld.

End Examples.

From Stdlib Require Import Sorted.
From stdpp Require Import pretty.

Local Open Scope string_scope.
Local Open Scope Z_scope.

(** ** Well-formed presence records *)

Module Records.
Import Sharing Presence.

(** A document as the session's writes leave it in the store: active, with
    numeric coordinates, with the same store-assigned time in [timestamp]
    and [lastSeen], and without the [serverTimestamp()] sentinel. *)
Definition committedDoc (d : Doc) : Prop :=
  isActiveDoc d = true
  /\ (exists t, d !! "timestamp" = Some (VTimestamp t) /\ d !! "lastSeen" = Some (VTimestamp t))
  /\ (exists lat lng,
        d !! "latitude" = Some (VNumber lat) /\ d !! "longitude" = Some (VNumber lng))
  /\ (forall k, d !! k <> Some VServerTimestamp).

(** Every stored document is such a document, and every write in flight is
    an update built by [updateDriverLocation]. *)
Definition storeInvariant (w : World) : Prop :=
  map_Forall (fun _ d => committedDoc d) (driverLocations w)
  /\ Forall (fun wr => exists p, snd wr = updateData p) (inflight w).

(** The [driverInfo] object [startSharing] builds from the profile. *)
Definition shareInfoOf (profile : Profile) : ShareInfo :=
  {| info_displayName := displayName profile;
     info_busNumber := driverInfo profile ≫= busNumber;
     info_route := driverInfo profile ≫= route |}.

End Records.

(** ** More sample data *)

Module Samples.
Import Sharing Examples.

(** A world in which one update of Ann's is in flight and she has no record. *)
Definition pendingWorld : World :=
  {| hook := initialHook; driverLocations := ∅; watches := ∅; nextWatchId := 1;
     inflight := [(uid ann, updateData P2)]; effects := [] |}.

(** The same, with a record that holds only her name. *)
Definition namedWorld : World :=
  {| hook := initialHook;
     driverLocations := {[ uid ann := {[ "displayName" := VString "Ann" ]} ]};
     watches := ∅; nextWatchId := 1;
     inflight := [(uid ann, updateData P2)]; effects := [] |}.

End Samples.

(** ** Facts about the session *)

Module SessionFacts.
Import Sharing Schedule.

(** The hook's ref names every watch registered with the device, and watch
    ids are positive. *)
Definition watchInvariant (w : World) : Prop :=
  0 < nextWatchId w
  /\ (forall id, watchIdRef (hook w) = Some id -> 0 < id)
  /\ (forall id ctx, watches w !! id = Some ctx -> watchIdRef (hook w) = Some id).

(** An event after which no watch is left: a stop, or the unmount. *)
Definition endsWatching (e : Event) : Prop :=
  match e with
  | Stop _ _ | Unmounted => True
  | _ => False
  end.

(** The calls by which [stopSharing] and the unmount cleanup cancel what
    the two refs hold. *)
Definition clearEffects (h : HookState) : list Effect :=
  (match watchIdRef h with
   | Some id => if refSet (Some id) then [ClearWatch id] else []
   | None => []
   end
   ++ match updateIntervalRef h with
      | Some id => if refSet (Some id) then [ClearInterval id] else []
      | None => []
      end)%list.

Definition isOk (o : Geo.Outcome) : bool :=
  match o with
  | Geo.Ok _ => true
  | Geo.Failed _ _ => false
  end.

Definition isCommitted (o : StoreOutcome) : bool :=
  match o with
  | Committed _ => true
  | Rejected _ => false
  end.

(** The conditions under which a call of [startSharing] succeeds, for the
    permission state the hook holds. *)
Definition startSucceeds (br : Browser) (ctx : Ctx) (permission : string)
    (perm pos : Geo.Outcome) (wr : StoreOutcome) : bool :=
  isDriver ctx && isVerified ctx
  && bool_decide (is_Some (user ctx)) && bool_decide (is_Some (userProfile ctx))
  && hasGeolocation br
  && (negb (mustRequest permission) || isOk perm)
  && isOk pos && isCommitted wr.

End SessionFacts.

(** ** A start suspended at its await *)

Module Suspended.
Import Sharing Records.
Local Open Scope sharing_scope.

(** [startSharing] up to its [await startLocationSharing(...)], for a
    caller that has passed the two guards: [Some r] when the permission
    request has failed and the function is about to return [r]. *)
Definition startSharing_begin (br : Browser) (perm : Geo.Outcome) : M (option Result) :=
  setLoading true ;;
  setError "" ;;
  let* permission := get (fun w => locationPermission (hook w)) in
  if mustRequest permission then
    let* permResult := requestPermission br perm in
    if negb (success permResult) then
      setLoading false ;;
      ret (Some permResult)
    else ret None
  else ret None.

(** [startSharing] from the moment that [await] resumes with [result], to
    its end, the [finally] included.  Nothing here looks at what happened
    while the function was suspended. *)
Definition startSharing_resume (br : Browser) (ctx : Ctx) (del : StoreOutcome)
    (result : Result) : M Result :=
  let* r :=
    if success result then
      setIsSharing true ;;
      setCurrentPosition (res_position result) ;;
      setAccuracy (Geo.accuracy <$> (Geo.coords <$> res_position result)) ;;
      startWatchingPosition br ctx del ;;
      ret succeeded
    else
      setError (errorText (res_error result)) ;;
      ret (failed (res_error result)) in
  setLoading false ;;
  ret r.

(** The whole of [startSharing] for such a caller, when nothing else runs
    while it is suspended. *)
Definition startSharing_uninterrupted (br : Browser) (ctx : Ctx) (u : User)
    (profile : Profile) (perm pos : Geo.Outcome) (wr del : StoreOutcome) : M Result :=
  let* refused := startSharing_begin br perm in
  match refused with
  | Some permResult =>
      setLoading false ;;
      ret permResult
  | None =>
      let* result := startLocationSharing br (uid u) (email u) (shareInfoOf profile) pos wr in
      startSharing_resume br ctx del result
  end.

End Suspended.

(** ** Selection and focus: [AppContent] and [MapUpdater] in [src/App.jsx] *)

Module Selection.
Import BusService BusMap.

(** The state cells of [AppContent] that the selection handlers touch. *)
Record State := {
  selectedBus : option Bus;
  selectedDriver : option Driver;
  sidebarOpen : bool;
  isMobile : bool
}.

Definition initialState : State :=
  {| selectedBus := None; selectedDriver := None; sidebarOpen := false; isMobile := false |}.

(** [handleBusSelect(bus)]; [None] is a call with [null]. *)
Definition handleBusSelect (bus : option Bus) (s : State) : State :=
  {| selectedBus := bus;
     selectedDriver := None;
     sidebarOpen := if isMobile s then false else sidebarOpen s;
     isMobile := isMobile s |}.

(** [handleDriverSelect(driver)] *)
Definition handleDriverSelect (driver : option Driver) (s : State) : State :=
  {| selectedBus := None;
     selectedDriver := driver;
     sidebarOpen := if isMobile s then false else sidebarOpen s;
     isMobile := isMobile s |}.

(** The close button of the info panel. *)
Definition closeInfoPanel (s : State) : State :=
  {| selectedBus := None; selectedDriver := None;
     sidebarOpen := sidebarOpen s; isMobile := isMobile s |}.

(** [toggleSidebar()] *)
Definition toggleSidebar (s : State) : State :=
  {| selectedBus := selectedBus s; selectedDriver := selectedDriver s;
     sidebarOpen := negb (sidebarOpen s); isMobile := isMobile s |}.

(** The overlay's click and key handlers: [setSidebarOpen(false)]. *)
Definition closeSidebar (s : State) : State :=
  {| selectedBus := selectedBus s; selectedDriver := selectedDriver s;
     sidebarOpen := false; isMobile := isMobile s |}.

(** [checkMobile()] on a resize to the width [innerWidth], followed by the
    effect on [isMobile], which runs when the flag has changed and opens
    the sidebar when the window is not mobile. *)
Definition resize (innerWidth : Z) (s : State) : State :=
  let mobile := innerWidth <? 768 in
  {| selectedBus := selectedBus s; selectedDriver := selectedDriver s;
     sidebarOpen := if negb (Bool.eqb mobile (isMobile s)) && negb mobile then true
                    else sidebarOpen s;
     isMobile := mobile |}.

Inductive Action :=
| SelectBus (bus : option Bus)
| SelectDriver (driver : option Driver)
| CloseInfoPanel
| ToggleSidebar
| CloseSidebar
| Resize (innerWidth : Z).

Definition act (a : Action) (s : State) : State :=
  match a with
  | SelectBus bus => handleBusSelect bus s
  | SelectDriver driver => handleDriverSelect driver s
  | CloseInfoPanel => closeInfoPanel s
  | ToggleSidebar => toggleSidebar s
  | CloseSidebar => closeSidebar s
  | Resize innerWidth => resize innerWidth s
  end.

Definition runActions (actions : list Action) (s : State) : State :=
  fold_left (fun s a => act a s) actions s.

(** A call [map.setView([lat, lng], zoom)]. *)
Record SetView := { center : Js.Number * Js.Number; zoom : Z }.

(** What the effect of [MapUpdater] on [selectedBus] does when it runs. *)
Definition busFocus (selectedBus : option Bus) : option SetView :=
  match selectedBus with
  | Some bus =>
      if Js.truthy (bus_latitude bus) && Js.truthy (bus_longitude bus)
      then Some {| center := (bus_latitude bus, bus_longitude bus); zoom := 15 |}
      else None
  | None => None
  end.

(** What the effect on [selectedDriver] does when it runs. *)
Definition driverFocus (selectedDriver : option Driver) : option SetView :=
  match selectedDriver with
  | Some driver =>
      if Js.truthy (drv_latitude driver) && Js.truthy (drv_longitude driver)
      then Some {| center := (drv_latitude driver, drv_longitude driver); zoom := 15 |}
      else None
  | None => None
  end.

End Selection.

(** ** The route guard: [ProtectedRoute] in [src/App.jsx] *)

Module Route.

(** What [useAuth] and [useUserRole] give the guard. *)
Record Input := {
  initialized : bool;
  loading : bool;
  roleLoading : bool;
  user : option Sharing.User;
  userProfile : option Sharing.Profile;
  isVerified : bool;
  isPending : bool
}.

Inductive View :=
| LoadingSpinner
| AuthPage
| PendingVerification
| ProfileLoading
| Children.

Definition ProtectedRoute (i : Input) : View :=
  if negb (initialized i) || loading i || roleLoading i then LoadingSpinner
  else if negb (bool_decide (is_Some (user i))) then AuthPage
  else if bool_decide (is_Some (user i)) && negb (isVerified i) && isPending i
  then PendingVerification
  else if bool_decide (is_Some (user i)) && negb (bool_decide (is_Some (userProfile i)))
          && negb (roleLoading i)
  then ProfileLoading
  else Children.

End Route.

(** ** Time labels: [formatLastUpdated] of [BusMap] *)

Module Display.
Import BusService BusMap.

(** The [Date] the function works with: [new Date(timestamp.seconds * 1000)]
    when [seconds] is truthy, else [new Date(timestamp)].  The latter copies
    a [Date]; what it makes of a store timestamp object whose [seconds] is 0
    is left to [fallback] ([None] for an invalid date). *)
Definition dateOf (fallback : option Z) (timestamp : TimeValue) : option Z :=
  match timestamp with
  | StoreTimestamp seconds => if seconds =? 0 then fallback else Some (seconds * 1000)
  | JsDate ms => Some ms
  end.

(** [formatLastUpdated(timestamp)], at the time [now] in milliseconds;
    [toLocaleDateString] is the browser's rendering of a date.  An invalid
    date fails every comparison and is rendered as a date. *)
Definition formatLastUpdated (toLocaleDateString : option Z -> string)
    (fallback : option Z) (now : Z) (timestamp : option TimeValue) : string :=
  match timestamp with
  | None => "Unknown"
  | Some ts =>
      match dateOf fallback ts with
      | Some date =>
          let diffMs := now - date in
          let diffMins := diffMs / 60000 in
          if diffMins <? 1 then "Just now"
          else if diffMins <? 60 then pretty diffMins ++ "m ago"
          else
            let diffHours := diffMins / 60 in
            if diffHours <? 24 then pretty diffHours ++ "h ago"
            else toLocaleDateString (Some date)
      | None => toLocaleDateString None
      end
  end.


End Display.

(** * Properties *)

Local Open Scope list_scope.

(** ** The fleet subscription and the map *)

Section ViewLayer.
Import BusService BusMap Spec.

Lemma zeroOrMissing_falsy (x : Js.Number) :
  zeroOrMissing x -> Js.truthy x = false.
Proof. intros [-> | ->]; reflexivity. Qed.

Lemma bus_invalid_coordinates (b : Bus) :
  zeroOrMissing (bus_latitude b) \/ zeroOrMissing (bus_longitude b) ->
  hasCoordinates b = false.
Proof.
  unfold hasCoordinates.
  intros [H | H]; apply zeroOrMissing_falsy in H; rewrite H;
    [reflexivity | apply andb_false_r].
Qed.

Lemma driver_invalid_coordinates (d : Driver) :
  zeroOrMissing (drv_latitude d) \/ zeroOrMissing (drv_longitude d) ->
  driverHasCoordinates d = false.
Proof.
  unfold driverHasCoordinates.
  intros [H | H]; apply zeroOrMissing_falsy in H; rewrite H;
    [reflexivity | apply andb_false_r].
Qed.

(** The sort only reorders. *)
Lemma elem_of_insertByTime (x y : Bus) (l : list Bus) :
  x ∈ insertByTime y l <-> x = y \/ x ∈ l.
Proof.
  induction l as [|z l IH]; simpl.
  - rewrite list_elem_of_singleton, elem_of_nil. tauto.
  - destruct (sortKey z <=? sortKey y).
    + rewrite !elem_of_cons. tauto.
    + rewrite !elem_of_cons, IH. tauto.
Qed.

Lemma elem_of_sortByTime (x : Bus) (l : list Bus) :
  x ∈ sortByTime l <-> x ∈ l.
Proof.
  induction l as [|y l IH]; simpl; [reflexivity |].
  rewrite elem_of_insertByTime, elem_of_cons, IH. reflexivity.
Qed.

Lemma demoBuses_have_coordinates (now : Z) (b : Bus) :
  b ∈ demoBuses now -> hasCoordinates b = true.
Proof.
  unfold demoBuses. rewrite !elem_of_cons, elem_of_nil.
  intros [-> | [-> | [-> | []]]]; reflexivity.
Qed.

(** Everything the snapshot handler passes on has coordinates. *)
Lemma onSnapshot_has_coordinates (now : Z) (docs : list Bus) (b : Bus) :
  b ∈ onSnapshot now docs -> hasCoordinates b = true.
Proof.
  unfold onSnapshot.
  destruct (filter (fun b => hasCoordinates b = true) docs) as [|c l] eqn:E.
  - apply demoBuses_have_coordinates.
  - rewrite elem_of_sortByTime, <- E, list_elem_of_filter. tauto.
Qed.

Lemma filter_all_invalid (docs : list Bus) :
  Forall (fun b => hasCoordinates b = false) docs ->
  filter (fun b => hasCoordinates b = true) docs = [].
Proof.
  induction 1 as [|b l Hb _ IH]; [reflexivity |].
  rewrite filter_cons_False; [exact IH | congruence].
Qed.

Lemma allLocations_drop (b : Bus) (d : Driver)
    (buses1 buses2 : list Bus) (drivers1 drivers2 : list Driver) :
  hasCoordinates b = false -> driverHasCoordinates d = false ->
  allLocations (buses1 ++ b :: buses2) (drivers1 ++ d :: drivers2)
  = allLocations (buses1 ++ buses2) (drivers1 ++ drivers2).
Proof.
  intros Hb Hd. unfold allLocations.
  rewrite !filter_app.
  rewrite (filter_cons_False _ b) by congruence.
  rewrite (filter_cons_False _ d) by congruence.
  reflexivity.
Qed.

End ViewLayer.

(** *** The centroid *)

Section Centroid.
Import BusService BusMap Spec.

Lemma validPair_spec (lat lng : Js.Number) :
  match validPair lat lng with
  | Some c => lat = Js.Num (fst c) /\ lng = Js.Num (snd c)
              /\ Js.truthy lat && Js.truthy lng = true
  | None => Js.truthy lat && Js.truthy lng = false
  end.
Proof.
  unfold validPair.
  destruct lat as [| |x], lng as [| |y]; simpl; try reflexivity;
    try (destruct (Qc_eq_bool x 0); reflexivity).
  destruct (Qc_eq_bool x 0), (Qc_eq_bool y 0); simpl; auto.
Qed.

Lemma bus_locations_valid (buses : list Bus) :
  busLocation <$> filter (fun b => hasCoordinates b = true) buses
  = locationsOf (omap (fun b => validPair (bus_latitude b) (bus_longitude b)) buses).
Proof.
  induction buses as [|b l IH]; [reflexivity |].
  simpl omap.
  pose proof (validPair_spec (bus_latitude b) (bus_longitude b)) as H.
  destruct (validPair (bus_latitude b) (bus_longitude b)) as [c|].
  - destruct H as (Hx & Hy & Ht).
    rewrite filter_cons_True by exact Ht.
    rewrite fmap_cons, IH. unfold busLocation. rewrite Hx, Hy. reflexivity.
  - rewrite filter_cons_False by (unfold hasCoordinates; congruence).
    exact IH.
Qed.

Lemma driver_locations_valid (drivers : list Driver) :
  driverLocation <$> filter (fun d => driverHasCoordinates d = true) drivers
  = locationsOf (omap (fun d => validPair (drv_latitude d) (drv_longitude d)) drivers).
Proof.
  induction drivers as [|d l IH]; [reflexivity |].
  simpl omap.
  pose proof (validPair_spec (drv_latitude d) (drv_longitude d)) as H.
  destruct (validPair (drv_latitude d) (drv_longitude d)) as [c|].
  - destruct H as (Hx & Hy & Ht).
    rewrite filter_cons_True by exact Ht.
    rewrite fmap_cons, IH. unfold driverLocation. rewrite Hx, Hy. reflexivity.
  - rewrite filter_cons_False by (unfold driverHasCoordinates; congruence).
    exact IH.
Qed.

Lemma allLocations_valid (buses : list Bus) (drivers : list Driver) :
  allLocations buses drivers = locationsOf (validCoordinates buses drivers).
Proof.
  unfold allLocations, validCoordinates, locationsOf.
  rewrite fmap_app. f_equal; [apply bus_locations_valid | apply driver_locations_valid].
Qed.

(** The reduction adds the coordinates one after the other, from whatever
    it has so far. *)
Lemma reduceSum_from (f : Location -> Js.Number) (g : Qc * Qc -> Qc)
    (cs : list (Qc * Qc)) (a : Js.Double) :
  (forall c, f {| latitude := Js.Num (fst c); longitude := Js.Num (snd c) |} = Js.Num (g c)) ->
  fold_left (fun acc loc => Js.add acc (Js.toDouble (f loc))) (locationsOf cs) a
  = fold_left (fun s x => Js.add s (Js.double x)) (g <$> cs) a.
Proof.
  intros Hf. revert a. induction cs as [|c cs IH]; intros a; [reflexivity |].
  change (locationsOf (c :: cs)) with
    ({| latitude := Js.Num (fst c); longitude := Js.Num (snd c) |} :: locationsOf cs).
  change (g <$> c :: cs) with (g c :: (g <$> cs)).
  cbn [fold_left]. rewrite Hf. cbn [Js.toDouble]. apply IH.
Qed.

Lemma reduceSum_valid (f : Location -> Js.Number) (g : Qc * Qc -> Qc)
    (cs : list (Qc * Qc)) :
  (forall c, f {| latitude := Js.Num (fst c); longitude := Js.Num (snd c) |} = Js.Num (g c)) ->
  reduceSum f (locationsOf cs) = sum (g <$> cs).
Proof. intros Hf. unfold reduceSum, sum. apply reduceSum_from, Hf. Qed.

(** [getMapCenter] computes the centroid of the specification. *)
Lemma getMapCenter_centroid (buses : list Bus) (drivers : list Driver) :
  getMapCenter buses drivers = centroid buses drivers.
Proof.
  unfold getMapCenter, centroid. rewrite allLocations_valid.
  destruct (validCoordinates buses drivers) as [|c cs]; [reflexivity |].
  set (l := c :: cs).
  change (locationsOf l) with
    ({| latitude := Js.Num (fst c); longitude := Js.Num (snd c) |} :: locationsOf cs) at 1.
  cbv iota beta.
  rewrite (reduceSum_valid latitude fst l) by reflexivity.
  rewrite (reduceSum_valid longitude snd l) by reflexivity.
  unfold locationsOf, mean. rewrite !length_fmap. reflexivity.
Qed.

End Centroid.

(** *** Claims about the merged view *)

Section ViewClaims.
Import BusService BusMap Spec Examples.

(** C8. With no selection, the viewpoint [getMapCenter] is the arithmetic
    mean of the latitudes and of the longitudes over all fleet and
    presence entities with valid coordinates, and the fixed default
    coordinate when there is none; for the entities at (40,-74) and
    (42,-72) it is (41,-73).  The mean is the one the program's numbers
    give: the binary64 sum of the values, in the order fleet then
    presence, divided by their number; for the three demo buses that is
    the number printed as 40.74073333333333 and the one printed as
    -73.99483333333335. *)
Theorem viewpoint_is_centroid :
  (forall buses drivers,
     getMapCenter buses drivers
     = match validCoordinates buses drivers with
       | [] => (Js.double (Js.dec4 407128), Js.double (Js.dec4 (-740060)))
       | cs => (mean (fst <$> cs), mean (snd <$> cs))
       end)
  /\ (forall x1 x2 x3 : Qc,
        mean [x1; x2; x3]
        = Js.divLength
            (Js.add (Js.add (Js.add (Js.double 0) (Js.double x1)) (Js.double x2))
                    (Js.double x3))
            3)
  /\ getMapCenter [busAt "b" (deg 40) (deg (-74))] [driverAt "d" (deg 42) (deg (-72)) None]
     = (Js.toDouble (deg 41), Js.toDouble (deg (-73)))
  /\ getMapCenter [busAt "b" (deg 40) (deg (-74)); busAt "c" (deg 42) (deg (-72))] []
     = (Js.toDouble (deg 41), Js.toDouble (deg (-73)))
  /\ getMapCenter [] [] = defaultCenter
  /\ (forall now,
        getMapCenter (demoBuses now) []
        = (Js.double (Q2Qc (4074073333333333 # 100000000000000)),
           Js.double (Q2Qc (-7399483333333335 # 100000000000000)))).
Proof.
  split; [| split; [| split; [| split; [| split]]]].
  - intros buses drivers. apply getMapCenter_centroid.
  - reflexivity.
  - vm_compute. reflexivity.
  - vm_compute. reflexivity.
  - reflexivity.
  - intros now. vm_compute. reflexivity.
Qed.

End ViewClaims.

Section FleetClaims.
Import BusService BusMap Spec Examples.

(** C7. For every presence list, an empty fleet snapshot gives the three
    literal demo entries, through the snapshot handler's own branch (taken
    exactly when the snapshot contributes no entry) and not through the
    error handler; what the map shows is those entries together with the
    presence entries. *)
Theorem empty_fleet_gives_demo_and_presence (now clock : Z) (drivers : list Driver) :
  let buses := subscribeToBusLocations now (Snapshot []) in
  buses = demoBuses now
  /\ ((fun b => (bus_id b, bus_busId b, bus_latitude b, bus_longitude b,
                 bus_route b, bus_status b, bus_speed b, bus_heading b)) <$> buses
      = [ ("demo-bus-1", Some "B001", Js.Num (Js.dec4 407128), Js.Num (Js.dec4 (-740060)),
           Some "Route 1 - Downtown", Some "active", Some 25, Some 90);
          ("demo-bus-2", Some "B002", Js.Num (Js.dec4 407589), Js.Num (Js.dec4 (-739851)),
           Some "Route 2 - Uptown", Some "active", Some 30, Some 180);
          ("demo-bus-3", Some "B003", Js.Num (Js.dec4 407505), Js.Num (Js.dec4 (-739934)),
           Some "Route 3 - Crosstown", Some "maintenance", Some 0, Some 0) ])
  /\ markers clock buses drivers
     = (busMarker <$> demoBuses now) ++ (driverMarker clock <$> drivers)
  /\ allLocations buses drivers
     = (busLocation <$> demoBuses now)
       ++ (driverLocation <$> filter (fun d => driverHasCoordinates d = true) drivers)
  /\ (forall docs,
        subscribeToBusLocations now (Snapshot docs)
        = if decide (filter (fun b => hasCoordinates b = true) docs = [])
          then demoBuses now
          else sortByTime (filter (fun b => hasCoordinates b = true) docs)).
Proof.
  cbn zeta. repeat split.
  intros docs. cbn [subscribeToBusLocations]. unfold onSnapshot.
  destruct (filter (fun b => hasCoordinates b = true) docs) as [|b l].
  - rewrite decide_True by reflexivity. reflexivity.
  - rewrite decide_False by discriminate. reflexivity.
Qed.

(** C10. On a listener error the callback is still called, with a list of
    one entry, [demo-bus-1]; this is not the three-entry list of the
    empty-snapshot case. *)
Theorem listen_error_gives_single_demo_bus (now : Z) (message : string) :
  let buses := subscribeToBusLocations now (ListenError message) in
  buses = [demoBus1 now]
  /\ bus_id <$> buses = ["demo-bus-1"]
  /\ length buses = 1%nat
  /\ length (subscribeToBusLocations now (Snapshot [])) = 3%nat
  /\ buses <> subscribeToBusLocations now (Snapshot [])
  /\ (forall b, b ∈ buses <-> b = demoBus1 now).
Proof.
  cbn zeta. cbn [subscribeToBusLocations onError errorDemoBuses].
  repeat split; try reflexivity.
  - discriminate.
  - intros H. apply list_elem_of_singleton in H. exact H.
  - intros ->. apply list_elem_of_singleton. reflexivity.
Qed.

(** C9. An entry whose latitude or longitude is exactly zero or missing
    has no valid coordinates: the fleet subscription does not pass it on
    (so a collection of such entries, though not empty, gets the demo
    fleet), the centroid leaves it out, and it gets no marker. *)
Theorem zero_or_missing_coordinate_is_invalid
    (now clock : Z) (b : Bus) (d : Driver) (docs fleet : list Bus)
    (buses1 buses2 : list Bus) (drivers1 drivers2 : list Driver) :
  zeroOrMissing (bus_latitude b) \/ zeroOrMissing (bus_longitude b) ->
  zeroOrMissing (drv_latitude d) \/ zeroOrMissing (drv_longitude d) ->
  Forall (fun c => zeroOrMissing (bus_latitude c) \/ zeroOrMissing (bus_longitude c)) fleet ->
  (b ∉ subscribeToBusLocations now (Snapshot docs))
  /\ subscribeToBusLocations now (Snapshot (b :: docs))
     = subscribeToBusLocations now (Snapshot docs)
  /\ subscribeToBusLocations now (Snapshot [b]) = demoBuses now
  /\ subscribeToBusLocations now (Snapshot fleet) = demoBuses now
  /\ getMapCenter (buses1 ++ b :: buses2) (drivers1 ++ d :: drivers2)
     = getMapCenter (buses1 ++ buses2) (drivers1 ++ drivers2)
  /\ busMarker b = None
  /\ driverMarker clock d = None.
Proof.
  intros Hb Hd Hfleet.
  pose proof (bus_invalid_coordinates b Hb) as Hb'.
  pose proof (driver_invalid_coordinates d Hd) as Hd'.
  assert (Hcons : forall l, onSnapshot now (b :: l) = onSnapshot now l).
  { intros l. unfold onSnapshot.
    rewrite filter_cons_False by congruence. reflexivity. }
  repeat split.
  - intros Hin. apply onSnapshot_has_coordinates in Hin. congruence.
  - apply Hcons.
  - cbn [subscribeToBusLocations]. rewrite Hcons. reflexivity.
  - cbn [subscribeToBusLocations]. unfold onSnapshot.
    rewrite filter_all_invalid; [reflexivity |].
    eapply Forall_impl; [exact Hfleet |]. intros c Hc. apply bus_invalid_coordinates, Hc.
  - unfold getMapCenter. rewrite (allLocations_drop b d) by assumption. reflexivity.
  - unfold busMarker. unfold hasCoordinates in Hb'.
    destruct (Js.truthy (bus_latitude b)), (Js.truthy (bus_longitude b));
      try reflexivity; discriminate.
  - unfold driverMarker. unfold driverHasCoordinates in Hd'.
    destruct (Js.truthy (drv_latitude d)), (Js.truthy (drv_longitude d));
      try reflexivity; discriminate.
Qed.

Lemma zero_or_missing_coordinate_is_invalid_witness :
  (zeroOrMissing (bus_latitude (busAt "b0" (deg 0) (deg 10)))
   \/ zeroOrMissing (bus_longitude (busAt "b0" (deg 0) (deg 10))))
  /\ (zeroOrMissing (drv_latitude (driverAt "d0" (deg 10) Js.Undefined (Some 5)))
      \/ zeroOrMissing (drv_longitude (driverAt "d0" (deg 10) Js.Undefined (Some 5))))
  /\ Forall (fun c => zeroOrMissing (bus_latitude c) \/ zeroOrMissing (bus_longitude c))
       [busAt "b0" (deg 0) (deg 10); busAt "b1" Js.Undefined (deg 10)]
  /\ subscribeToBusLocations 0
       (Snapshot [busAt "b0" (deg 0) (deg 10); busAt "b1" Js.Undefined (deg 10)])
     = demoBuses 0
  /\ driverMarker 0 (driverAt "d0" (deg 10) Js.Undefined (Some 5)) = None.
Proof.
  assert (Hb : zeroOrMissing (bus_latitude (busAt "b0" (deg 0) (deg 10)))
               \/ zeroOrMissing (bus_longitude (busAt "b0" (deg 0) (deg 10)))).
  { left. left. reflexivity. }
  assert (Hd : zeroOrMissing (drv_latitude (driverAt "d0" (deg 10) Js.Undefined (Some 5)))
               \/ zeroOrMissing (drv_longitude (driverAt "d0" (deg 10) Js.Undefined (Some 5)))).
  { right. right. reflexivity. }
  assert (Hf : Forall (fun c => zeroOrMissing (bus_latitude c) \/ zeroOrMissing (bus_longitude c))
                 [busAt "b0" (deg 0) (deg 10); busAt "b1" Js.Undefined (deg 10)]).
  { constructor; [exact Hb |].
    constructor; [left; right; reflexivity | constructor]. }
  split; [exact Hb |]. split; [exact Hd |]. split; [exact Hf |].
  pose proof (zero_or_missing_coordinate_is_invalid 0 0
                (busAt "b0" (deg 0) (deg 10))
                (driverAt "d0" (deg 10) Js.Undefined (Some 5))
                [] _ [] [] [] [] Hb Hd Hf) as H.
  split; [exact (proj1 (proj2 (proj2 (proj2 H))))
         | exact (proj2 (proj2 (proj2 (proj2 (proj2 (proj2 H))))))].
Defined.

End FleetClaims.

(** *** Staleness *)

Section Staleness.
Import BusMap Spec Sharing Presence Examples.

Lemma commit_lookup (t : Z) (data : Doc) (k : string) :
  commit t data !! k
  = (fun v => match v with VServerTimestamp => VTimestamp t | _ => v end) <$> (data !! k).
Proof. unfold commit. apply lookup_fmap. Qed.

(** Both writes of the session ask the store for [timestamp] and
    [lastSeen] at once, so a committed write sets them to the same time. *)
Lemma locationData_times (t : Z) (userId userEmail : string) (info : ShareInfo)
    (p : Geo.Position) (k : string) :
  k = "timestamp" \/ k = "lastSeen" ->
  commit t (locationData userId userEmail info p) !! k = Some (VTimestamp t).
Proof. intros [-> | ->]; rewrite commit_lookup; reflexivity. Qed.

Lemma updateData_times (t : Z) (p : Geo.Position) (k : string) :
  k = "timestamp" \/ k = "lastSeen" ->
  commit t (updateData p) !! k = Some (VTimestamp t).
Proof. intros [-> | ->]; rewrite commit_lookup; reflexivity. Qed.

Lemma mergeDoc_lookup (userId : string) (data : Doc) (st : gmap string Doc) :
  mergeDoc userId data st !! userId = Some (data ∪ default ∅ (st !! userId)).
Proof. unfold mergeDoc. apply lookup_insert_eq. Qed.

Lemma created_entry_times (t : Z) (userId userEmail : string) (info : ShareInfo)
    (p : Geo.Position) :
  let d := driverOfDoc userId (commit t (locationData userId userEmail info p)) in
  drv_timestamp d = Some t /\ drv_lastSeen d = Some t.
Proof.
  cbn zeta. unfold driverOfDoc, timeField. cbn [drv_timestamp drv_lastSeen].
  rewrite !locationData_times by auto. auto.
Qed.

Lemma updated_entry_times (t : Z) (userId : string) (p : Geo.Position) (old : Doc) :
  let d := driverOfDoc userId (commit t (updateData p) ∪ old) in
  drv_timestamp d = Some t /\ drv_lastSeen d = Some t.
Proof.
  cbn zeta. unfold driverOfDoc, timeField. cbn [drv_timestamp drv_lastSeen].
  rewrite !(lookup_union_Some_l _ _ _ (VTimestamp t)) by (apply updateData_times; auto).
  auto.
Qed.

Lemma isRecent_window (now seconds : Z) (d : Driver) :
  drv_timestamp d = Some seconds ->
  isRecent now d = true <-> now - seconds * 1000 < 300000.
Proof. intros H. unfold isRecent. rewrite H. apply Z.ltb_lt. Qed.

(** C6. For a presence entry whose time the store has assigned, the
    staleness flag is taken against a window of 300 seconds: stale at
    301 s, not stale at 299 s; the time used is the one the store assigned
    as last-seen time; a stale entry keeps its place and its marker. *)
Theorem staleness_window_300s (now seconds : Z) (d : Driver) (drivers : list Driver) :
  drv_timestamp d = Some seconds ->
  (isStale now d = true <-> 300 * 1000 <= now - seconds * 1000)
  /\ (now - seconds * 1000 = 301 * 1000 -> isStale now d = true)
  /\ (now - seconds * 1000 = 299 * 1000 -> isStale now d = false)
  /\ (driverHasCoordinates d = true ->
      driverMarker now d
      = Some {| key := ("driver-" ++ drv_id d)%string;
                position := (drv_latitude d, drv_longitude d);
                icon := if isStale now d then "#dc2626" else "#16a34a" |})
  /\ length (driverMarker now <$> drivers) = length drivers
  /\ (forall t userId userEmail info p,
        let e := driverOfDoc userId (commit t (locationData userId userEmail info p)) in
        drv_lastSeen e = Some t
        /\ drv_timestamp e = drv_lastSeen e
        /\ (isStale now e = true <-> 300 * 1000 <= now - t * 1000))
  /\ (forall t userId p old,
        let e := driverOfDoc userId (commit t (updateData p) ∪ old) in
        drv_lastSeen e = Some t
        /\ drv_timestamp e = drv_lastSeen e
        /\ (isStale now e = true <-> 300 * 1000 <= now - t * 1000)).
Proof.
  assert (Hgen : forall e t, drv_timestamp e = Some t ->
                   isStale now e = true <-> 300 * 1000 <= now - t * 1000).
  { intros e t He. unfold isStale. rewrite negb_true_iff, <- not_true_iff_false.
    rewrite (isRecent_window now t e He). lia. }
  intros Hts.
  pose proof (Hgen d seconds Hts) as Hwin.
  split; [exact Hwin |].
  split; [intros H; apply Hwin; lia |].
  split.
  { intros H. apply not_true_iff_false. rewrite Hwin. lia. }
  split.
  { unfold driverHasCoordinates, driverMarker, isStale, createDriverIcon.
    intros H. apply andb_true_iff in H as [-> ->]. simpl.
    destruct (isRecent now d); reflexivity. }
  split; [apply length_fmap |].
  split.
  - intros t userId userEmail info p. cbn zeta.
    destruct (created_entry_times t userId userEmail info p) as [H1 H2].
    split; [exact H2 |]. split; [congruence | exact (Hgen _ t H1)].
  - intros t userId p old. cbn zeta.
    destruct (updated_entry_times t userId p old) as [H1 H2].
    split; [exact H2 |]. split; [congruence | exact (Hgen _ t H1)].
Qed.

Lemma staleness_window_300s_witness :
  drv_timestamp (driverAt "d" (deg 40) (deg (-74)) (Some 1000)) = Some 1000
  /\ isStale 1301000 (driverAt "d" (deg 40) (deg (-74)) (Some 1000)) = true
  /\ isStale 1299000 (driverAt "d" (deg 40) (deg (-74)) (Some 1000)) = false.
Proof.
  split; [reflexivity |]. split.
  - apply (staleness_window_300s 1301000 1000 (driverAt "d" (deg 40) (deg (-74)) (Some 1000)) []);
      reflexivity.
  - apply (staleness_window_300s 1299000 1000 (driverAt "d" (deg 40) (deg (-74)) (Some 1000)) []);
      reflexivity.
Defined.

End Staleness.

(** ** The sharing session *)

Section MonadLaws.
Import Sharing.

Lemma exec_bind {A B} (m : M A) (k : A -> M B) (w : World) :
  exec (bind m k) w = exec (k (result m w)) (exec m w).
Proof. unfold exec, result, bind. destruct (m w). reflexivity. Qed.

Lemma result_bind {A B} (m : M A) (k : A -> M B) (w : World) :
  result (bind m k) w = result (k (result m w)) (exec m w).
Proof. unfold exec, result, bind. destruct (m w). reflexivity. Qed.

Lemma exec_ret {A} (a : A) (w : World) : exec (ret a) w = w.
Proof. reflexivity. Qed.

Lemma result_ret {A} (a : A) (w : World) : result (ret a) w = a.
Proof. reflexivity. Qed.

Lemma run_app (br : Browser) (es1 es2 : list Event) (w : World) :
  run br (es1 ++ es2) w = run br es2 (run br es1 w).
Proof. unfold run. apply fold_left_app. Qed.

End MonadLaws.

Section SessionClaims.
Import Sharing Examples.

(** C3. With a capability pair other than (true, true), [startSharing]
    fails at once with the capability message: it asks the device for no
    position, writes nothing to the store, and leaves the session as it
    was, the reported error apart. *)
Theorem start_without_capability_is_denied
    (br : Browser) (ctx : Ctx) (perm pos : Geo.Outcome) (wr del : StoreOutcome) (w : World) :
  (isDriver ctx, isVerified ctx) <> (true, true) ->
  let r := result (startSharing br ctx perm pos wr del) w in
  let w' := step br (Start ctx perm pos wr del) w in
  success r = false
  /\ error (hook w') = "Only verified drivers can share location"%string
  /\ effects w' = effects w
  /\ driverLocations w' = driverLocations w
  /\ watches w' = watches w
  /\ inflight w' = inflight w
  /\ nextWatchId w' = nextWatchId w
  /\ isSharing (hook w') = isSharing (hook w)
  /\ loading (hook w') = loading (hook w)
  /\ locationPermission (hook w') = locationPermission (hook w)
  /\ currentPosition (hook w') = currentPosition (hook w)
  /\ accuracy (hook w') = accuracy (hook w)
  /\ watchIdRef (hook w') = watchIdRef (hook w)
  /\ updateIntervalRef (hook w') = updateIntervalRef (hook w).
Proof.
  intros Hcap. cbn zeta. unfold step, exec, result, startSharing.
  assert (Hguard : negb (isDriver ctx) || negb (isVerified ctx) = true).
  { destruct (isDriver ctx), (isVerified ctx); try reflexivity.
    exfalso. apply Hcap. reflexivity. }
  rewrite Hguard. cbn. repeat split.
Qed.

Lemma start_without_capability_is_denied_witness :
  (false, true) <> (true, true)
  /\ error (hook (step desktop
                    (Start {| user := Some ann; userProfile := Some annProfile;
                              isDriver := false; isVerified := true |}
                           (Geo.Ok P1) (Geo.Ok P1) (Committed 100) (Committed 100))
                    initialWorld))
     = "Only verified drivers can share location"%string
  /\ effects (step desktop
                (Start {| user := Some ann; userProfile := Some annProfile;
                          isDriver := false; isVerified := true |}
                       (Geo.Ok P1) (Geo.Ok P1) (Committed 100) (Committed 100))
                initialWorld)
     = [].
Proof.
  assert (H : (false, true) <> (true, true)) by discriminate.
  split; [exact H |].
  pose proof (start_without_capability_is_denied desktop
                {| user := Some ann; userProfile := Some annProfile;
                   isDriver := false; isVerified := true |}
                (Geo.Ok P1) (Geo.Ok P1) (Committed 100) (Committed 100)
                initialWorld H) as T.
  split; [exact (proj1 (proj2 T)) | exact (proj1 (proj2 (proj2 T)))].
Defined.

Lemma step_update_rejected (br : Browser) (w : World) (i : nat) (wr : string * Doc)
    (msg : string) :
  inflight w !! i = Some wr ->
  step br (UpdateSettled i (Rejected msg)) w
  = exec (modifyInflight (fun q => delete i q) ;; setError "Failed to update location")%sharing w.
Proof. intros Hi. unfold step. rewrite Hi. reflexivity. Qed.

(** C5. When an update write of the watch is rejected, the sharing flag,
    the watch registration, the current position and every other field of
    the session stay as they are and only the reported error changes;
    nothing is written, no retry and no timer is set up, and the next
    delivered position issues its own write at once. *)
Theorem rejected_update_changes_only_error
    (br : Browser) (w : World) (i : nat) (wr : string * Doc) (msg : string) :
  inflight w !! i = Some wr ->
  let w' := step br (UpdateSettled i (Rejected msg)) w in
  error (hook w') = "Failed to update location"%string
  /\ isSharing (hook w') = isSharing (hook w)
  /\ loading (hook w') = loading (hook w)
  /\ locationPermission (hook w') = locationPermission (hook w)
  /\ currentPosition (hook w') = currentPosition (hook w)
  /\ accuracy (hook w') = accuracy (hook w)
  /\ watchIdRef (hook w') = watchIdRef (hook w)
  /\ updateIntervalRef (hook w') = updateIntervalRef (hook w)
  /\ watches w' = watches w
  /\ driverLocations w' = driverLocations w
  /\ effects w' = effects w
  /\ inflight w' = delete i (inflight w)
  /\ (forall id ctx u p,
        watches w !! id = Some ctx -> user ctx = Some u ->
        let w'' := step br (PositionDelivered id p) w' in
        inflight w'' = inflight w' ++ [(uid u, updateData p)]
        /\ effects w'' = effects w' ++ [SetDoc (uid u) true (updateData p)]
        /\ isSharing (hook w'') = isSharing (hook w)).
Proof.
  intros Hi. cbn zeta.
  rewrite (step_update_rejected br w i wr msg Hi).
  do 12 (split; [reflexivity |]).
  intros id ctx u p Hw Hu. cbn zeta. unfold step.
  cbn [exec snd modifyInflight setError modifyHook bind watches].
  rewrite Hw. unfold positionCallback_issue. rewrite Hu.
  repeat split.
Qed.

Lemma rejected_update_changes_only_error_witness :
  inflight (step desktop (PositionDelivered 1 P2) sharingWorld) !! 0%nat
  = Some (uid ann, updateData P2)
  /\ isSharing (hook (step desktop (UpdateSettled 0 (Rejected "unavailable"))
                         (step desktop (PositionDelivered 1 P2) sharingWorld)))
     = true
  /\ error (hook (step desktop (UpdateSettled 0 (Rejected "unavailable"))
                     (step desktop (PositionDelivered 1 P2) sharingWorld)))
     = "Failed to update location"%string.
Proof.
  assert (H : inflight (step desktop (PositionDelivered 1 P2) sharingWorld) !! 0%nat
              = Some (uid ann, updateData P2)) by reflexivity.
  split; [exact H |].
  pose proof (rejected_update_changes_only_error desktop
                (step desktop (PositionDelivered 1 P2) sharingWorld)
                0 (uid ann, updateData P2) "unavailable" H) as T.
  split.
  - rewrite (proj1 (proj2 T)). reflexivity.
  - exact (proj1 T).
Defined.

(** The error callback gets an error object without a code (see
    [watchErrorHandler]), so its test [error.code === error.PERMISSION_DENIED]
    compares two absent fields and holds for every watch error. *)
Lemma watch_error_always_stops (ctx : Ctx) (del : StoreOutcome) (error : Geo.Error) (w : World) :
  exec (watchErrorHandler (errorCallback ctx del) error) w
  = exec (setError ("Location tracking error: " ++ errorMessage error) ;;
          stopSharing ctx del)%sharing w.
Proof.
  unfold watchErrorHandler, errorCallback.
  cbn [Geo.code Geo.PERMISSION_DENIED Geo.message Geo.newError].
  change (Geo.strictEq None None) with true. cbn [when].
  rewrite !exec_bind. reflexivity.
Qed.

(** C4. A permission error on the watch of an active session stops the
    session: the watch is cancelled and the presence record deleted.  The
    message of the error is set and then cleared again by [stopSharing],
    so the session ends with no error reported. *)
Theorem watch_permission_denied_stops_and_clears_error
    (br : Browser) (w : World) (id : Z) (ctx : Ctx) (u : User) (msg : string) (t : Z) :
  watches w !! id = Some ctx ->
  user ctx = Some u ->
  watchIdRef (hook w) = Some id ->
  id <> 0 ->
  updateIntervalRef (hook w) = None ->
  let w' := step br (WatchFailed id 1 msg (Committed t)) w in
  watches w' !! id = None
  /\ driverLocations w' !! uid u = None
  /\ effects w' = effects w ++ [ClearWatch id; DeleteDoc (uid u)]
  /\ isSharing (hook w') = false
  /\ watchIdRef (hook w') = None
  /\ currentPosition (hook w') = None
  /\ loading (hook w') = false
  /\ error (hook w') = ""%string
  /\ error (hook w') <> "Location tracking error: Location access denied by user"%string
  /\ Spec.sessionState (hook w') = Spec.Idle.
Proof.
  intros Hw Hu Href Hid Hint. cbn zeta. unfold step. rewrite Hw.
  rewrite watch_error_always_stops.
  unfold exec, stopSharing, bind, get, setError, setLoading, modifyHook, whenRef.
  cbn [hook watchIdRef updateIntervalRef fst snd].
  rewrite Href, Hint, Hu. unfold refSet.
  destruct (id =? 0) eqn:E; [apply Z.eqb_eq in E; contradiction |].
  cbn. rewrite <- app_assoc.
  repeat split; try reflexivity; try apply lookup_delete_eq.
  discriminate.
Qed.

Lemma watch_permission_denied_stops_and_clears_error_witness :
  watches sharingWorld !! 1 = Some annCtx
  /\ isSharing (hook sharingWorld) = true
  /\ is_Some (driverLocations sharingWorld !! uid ann)
  /\ driverLocations (step desktop (WatchFailed 1 1 "User denied Geolocation" (Committed 200))
                        sharingWorld) !! uid ann = None
  /\ error (hook (step desktop (WatchFailed 1 1 "User denied Geolocation" (Committed 200))
                     sharingWorld)) = ""%string.
Proof.
  assert (Hw : watches sharingWorld !! 1 = Some annCtx) by reflexivity.
  assert (Hid : (1 : Z) <> 0) by discriminate.
  pose proof (watch_permission_denied_stops_and_clears_error desktop sharingWorld 1 annCtx ann
                "User denied Geolocation" 200 Hw eq_refl eq_refl Hid eq_refl) as T.
  split; [exact Hw |]. split; [reflexivity |].
  split; [vm_compute; eexists; reflexivity |].
  split; [exact (proj1 (proj2 T)) |].
  exact (proj1 (proj2 (proj2 (proj2 (proj2 (proj2 (proj2 (proj2 T)))))))).
Defined.

End SessionClaims.

(** *** Ordering of the update writes *)

Section WriteOrdering.
Import Sharing Schedule Examples.

Lemma delivered_position_issues (br : Browser) (w : World) (id : Z) (ctx : Ctx) (u : User)
    (p : Geo.Position) :
  watches w !! id = Some ctx -> user ctx = Some u ->
  let w' := step br (PositionDelivered id p) w in
  inflight w' = inflight w ++ [(uid u, updateData p)]
  /\ effects w' = effects w ++ [SetDoc (uid u) true (updateData p)]
  /\ driverLocations w' = driverLocations w
  /\ watches w' = watches w.
Proof.
  intros Hw Hu. cbn zeta. unfold step. rewrite Hw.
  unfold positionCallback_issue. rewrite Hu. repeat split.
Qed.

Lemma settled_oldest (br : Browser) (w : World) (wr : string * Doc)
    (rest : list (string * Doc)) (o : StoreOutcome) :
  inflight w = wr :: rest ->
  let w' := step br (UpdateSettled 0 o) w in
  inflight w' = rest
  /\ effects w' = effects w
  /\ watches w' = watches w
  /\ driverLocations w'
     = match o with
       | Committed t => mergeDoc (fst wr) (commit t (snd wr)) (driverLocations w)
       | Rejected _ => driverLocations w
       end.
Proof.
  intros Hq. cbn zeta. unfold step. rewrite Hq. cbn [lookup list_lookup].
  destruct o; repeat split; cbn; rewrite Hq; reflexivity.
Qed.

Lemma settled_nothing (br : Browser) (w : World) (o : StoreOutcome) :
  inflight w = [] -> step br (UpdateSettled 0 o) w = w.
Proof. intros Hq. unfold step. rewrite Hq. reflexivity. Qed.

Lemma delivered_snoc (es : list Event) (e : Event) :
  delivered (es ++ [e])
  = delivered es ++ match e with PositionDelivered _ p => [p] | _ => [] end.
Proof.
  unfold delivered. rewrite omap_app. f_equal. destruct e; reflexivity.
Qed.

Lemma settlement_snoc (es : list Event) (e : Event) :
  settlement (es ++ [e]) = settleStep (settlement es) e.
Proof. unfold settlement. rewrite fold_left_app. reflexivity. Qed.

Lemma lastCommitted_snoc (l : list (Geo.Position * StoreOutcome)) (p : Geo.Position)
    (o : StoreOutcome) :
  lastCommitted (l ++ [(p, o)])
  = match o with
    | Committed t => Some (p, t)
    | Rejected _ => lastCommitted l
    end.
Proof.
  unfold lastCommitted. rewrite omap_app. destruct o as [t | m]; cbn.
  - apply last_snoc.
  - rewrite app_nil_r. reflexivity.
Qed.

(** Applied in order, the writes leave the record of the driver with the
    fields of the last one committed. *)
Lemma applied_in_order_last_wins (userId : string) (l : list (Geo.Position * StoreOutcome))
    (st : gmap string Doc) :
  (forall other, other <> userId ->
     fold_left (applyUpdate userId) l st !! other = st !! other)
  /\ match lastCommitted l with
     | Some (p, t) =>
         exists old, fold_left (applyUpdate userId) l st !! userId
                     = Some (commit t (updateData p) ∪ old)
     | None => fold_left (applyUpdate userId) l st = st
     end.
Proof.
  induction l as [|[p o] l IH] using rev_ind; [split; reflexivity |].
  destruct IH as [Hother Hlast].
  rewrite fold_left_app, lastCommitted_snoc. cbn [fold_left].
  unfold applyUpdate at 1 3. cbn [fst snd]. destruct o as [t | m].
  - split.
    + intros other Hne. unfold mergeDoc. rewrite lookup_insert_ne by congruence.
      apply Hother, Hne.
    + eexists. apply mergeDoc_lookup.
  - split; [exact Hother | exact Hlast].
Qed.

(** C2, as the code has it. A delivered position issues its write at
    once, whether or not an earlier write is still unresolved, so the
    writes are issued in the order the positions arrive and several can be
    in flight.  When the store settles the oldest write in flight first,
    each settlement takes the oldest unsettled position with the answer
    the store gives, the collection is the result of applying the settled
    writes in arrival order, each with its own answer, and the writes in
    flight are the rest, in order.  So the record of the driver has the
    fields of the last settled write that the store committed: no later
    position is overwritten by an earlier one.  No other record changes. *)
Theorem updates_issued_on_arrival_in_order
    (br : Browser) (w : World) (id : Z) (ctx : Ctx) (u : User) (es : list Event) :
  watches w !! id = Some ctx ->
  user ctx = Some u ->
  inflight w = [] ->
  Forall (inIssueOrder id) es ->
  let w' := run br es w in
  watches w' = watches w
  /\ effects w' = effects w ++ ((fun p => SetDoc (uid u) true (updateData p)) <$> delivered es)
  /\ delivered es = (fst <$> settled es) ++ unsettled es
  /\ inflight w' = (fun p => (uid u, updateData p)) <$> unsettled es
  /\ driverLocations w'
     = fold_left (applyUpdate (uid u)) (settled es) (driverLocations w)
  /\ (forall other, other <> uid u -> driverLocations w' !! other = driverLocations w !! other)
  /\ match lastCommitted (settled es) with
     | Some (p, t) =>
         exists doc,
           driverLocations w' !! uid u = Some doc
           /\ (forall k v, commit t (updateData p) !! k = Some v -> doc !! k = Some v)
           /\ doc !! "latitude" = Some (VNumber (Geo.latitude (Geo.coords p)))
           /\ doc !! "longitude" = Some (VNumber (Geo.longitude (Geo.coords p)))
           /\ doc !! "timestamp" = Some (VTimestamp t)
     | None => driverLocations w' = driverLocations w
     end.
Proof.
  intros Hw Hu Hq Hes. cbn zeta.
  assert (Hmain :
    watches (run br es w) = watches w
    /\ effects (run br es w)
       = effects w ++ ((fun p => SetDoc (uid u) true (updateData p)) <$> delivered es)
    /\ delivered es = (fst <$> settled es) ++ unsettled es
    /\ inflight (run br es w) = (fun p => (uid u, updateData p)) <$> unsettled es
    /\ driverLocations (run br es w)
       = fold_left (applyUpdate (uid u)) (settled es) (driverLocations w)).
  { induction es as [|e es IH] using rev_ind.
    - cbn. rewrite Hq, app_nil_r. repeat split.
    - apply Forall_app in Hes as [Hes He]. apply Forall_inv in He.
      destruct (IH Hes) as (Hwat & Heff & Hdel & Hin & Hst). clear IH.
      rewrite run_app. cbn [run fold_left]. fold (run br es w).
      set (w1 := run br es w) in *.
      unfold settled, unsettled in *. rewrite settlement_snoc, delivered_snoc.
      destruct (settlement es) as [done pending]. cbn [fst snd] in *.
      destruct e as [? | ? | ? ? ? ? ? | ? ? | ? ? ? ? ? | id' position | i o | ? ? ? ? | ];
        try contradiction; cbn in He; subst; cbn [settleStep fst snd].
      + (* a position arrives *)
        assert (Hw1 : watches w1 !! id = Some ctx) by (rewrite Hwat; exact Hw).
        destruct (delivered_position_issues br w1 id ctx u position Hw1 Hu)
          as (Hi' & He' & Hs' & Hw').
        split; [congruence |]. split.
        { rewrite He', Heff, fmap_app, app_assoc. reflexivity. }
        split; [rewrite Hdel, app_assoc; reflexivity |]. split.
        * rewrite Hi', Hin, fmap_app. reflexivity.
        * rewrite Hs'. exact Hst.
      + (* the oldest write in flight settles *)
        rewrite app_nil_r.
        destruct pending as [|p0 rest].
        * rewrite (settled_nothing br w1 o) by exact Hin. cbn [fst snd]. auto.
        * rewrite fmap_cons in Hin.
          destruct (settled_oldest br w1 _ _ o Hin) as (Hi' & He' & Hw' & Hs').
          cbn [fst snd].
          split; [congruence |]. split; [congruence |]. split.
          { rewrite Hdel, fmap_app, <- app_assoc. reflexivity. }
          split; [exact Hi' |].
          rewrite Hs', fold_left_app, <- Hst. unfold applyUpdate. cbn.
          destruct o; reflexivity. }
  destruct Hmain as (Hwat & Heff & Hdel & Hin & Hst).
  repeat (split; [assumption |]).
  destruct (applied_in_order_last_wins (uid u) (settled es) (driverLocations w))
    as [Hother Hlast].
  rewrite Hst. split; [exact Hother |].
  destruct (lastCommitted (settled es)) as [[p t]|]; [| exact Hlast].
  destruct Hlast as [old Hdoc]. exists (commit t (updateData p) ∪ old).
  split; [exact Hdoc |].
  assert (Hl : forall k v, commit t (updateData p) !! k = Some v ->
                 (commit t (updateData p) ∪ old) !! k = Some v).
  { intros k v Hk. apply lookup_union_Some_l. exact Hk. }
  split; [exact Hl |].
  repeat split; apply Hl; rewrite commit_lookup; reflexivity.
Qed.

Lemma updates_issued_on_arrival_in_order_witness :
  watches sharingWorld !! 1 = Some annCtx
  /\ inflight sharingWorld = []
  /\ Forall (inIssueOrder 1)
       [PositionDelivered 1 P1; PositionDelivered 1 P2; UpdateSettled 0 (Committed 101);
        PositionDelivered 1 P3; UpdateSettled 0 (Committed 102)]
  /\ effects (run desktop
                [PositionDelivered 1 P1; PositionDelivered 1 P2;
                 UpdateSettled 0 (Committed 101); PositionDelivered 1 P3;
                 UpdateSettled 0 (Committed 102)]
                sharingWorld)
     = effects sharingWorld
       ++ [SetDoc (uid ann) true (updateData P1); SetDoc (uid ann) true (updateData P2);
           SetDoc (uid ann) true (updateData P3)]
  /\ exists doc,
       driverLocations (run desktop
                          [PositionDelivered 1 P1; PositionDelivered 1 P2;
                           UpdateSettled 0 (Committed 101); PositionDelivered 1 P3;
                           UpdateSettled 0 (Committed 102)]
                          sharingWorld) !! uid ann = Some doc
       /\ doc !! "latitude" = Some (VNumber (Geo.latitude (Geo.coords P2)))
       /\ doc !! "timestamp" = Some (VTimestamp 102).
Proof.
  assert (Hw : watches sharingWorld !! 1 = Some annCtx) by reflexivity.
  assert (Hq : inflight sharingWorld = []) by reflexivity.
  assert (Hes : Forall (inIssueOrder 1)
                  [PositionDelivered 1 P1; PositionDelivered 1 P2;
                   UpdateSettled 0 (Committed 101); PositionDelivered 1 P3;
                   UpdateSettled 0 (Committed 102)]).
  { repeat constructor. }
  split; [exact Hw |]. split; [exact Hq |]. split; [exact Hes |].
  destruct (updates_issued_on_arrival_in_order desktop sharingWorld 1 annCtx ann
              _ Hw eq_refl Hq Hes) as (_ & Heff & _ & _ & _ & _ & Hlast).
  split; [exact Heff |].
  change (lastCommitted
            (settled [PositionDelivered 1 P1; PositionDelivered 1 P2;
                      UpdateSettled 0 (Committed 101); PositionDelivered 1 P3;
                      UpdateSettled 0 (Committed 102)]))
    with (Some (P2, 102)) in Hlast.
  destruct Hlast as (doc & Hdoc & _ & Hlat & _ & Ht).
  exists doc. auto.
Defined.
(** C2, as the specification has it, fails: with the write for [P1]
    unresolved, the delivery of [P2] issues a second write. *)
Lemma writes_are_not_serialized :
  ~ writesSerialized desktop
  /\ inflight (run desktop [PositionDelivered 1 P1; PositionDelivered 1 P2] sharingWorld)
     = [(uid ann, updateData P1); (uid ann, updateData P2)].
Proof.
  split; [| reflexivity].
  intros H.
  specialize (H [Start annCtx (Geo.Ok P1) (Geo.Ok P1) (Committed 100) (Committed 100);
                 PositionDelivered 1 P1] 1 P2).
  cbn zeta in H.
  assert (Hq : inflight (run desktop
                 [Start annCtx (Geo.Ok P1) (Geo.Ok P1) (Committed 100) (Committed 100);
                  PositionDelivered 1 P1] initialWorld) <> []) by discriminate.
  specialize (H Hq). apply (f_equal length) in H. vm_compute in H. discriminate.
Qed.

(** Without the store's own ordering nothing in the code keeps a late
    settlement from winning: if the write for [P2] settled before the one
    for [P1], the record would end at [P1]. *)
Lemma settlement_order_decides :
  let w := run desktop [PositionDelivered 1 P1; PositionDelivered 1 P2;
                        UpdateSettled 1 (Committed 102); UpdateSettled 0 (Committed 103)]
               sharingWorld in
  (driverLocations w !! uid ann) ≫= (fun d => d !! "latitude")
  = Some (VNumber (Geo.latitude (Geo.coords P1))).
Proof. vm_compute. reflexivity. Qed.

End WriteOrdering.

(** *** The presence record and the sharing flag *)

Section PresenceInvariant.
Import Sharing Schedule Examples.

Ltac break_step :=
  match goal with
  | |- context [match ?x with _ => _ end] =>
      lazymatch x with
      | context [match _ with _ => _ end] => fail
      | _ => destruct x eqn:?
      end
  end; cbn in *.

Lemma stopSharing_summary (ctx : Ctx) (del : StoreOutcome) (w : World) :
  let w' := exec (stopSharing ctx del) w in
  inflight w' = inflight w
  /\ nextWatchId w' = nextWatchId w
  /\ watches w' = watchesAfterClear w
  /\ watchIdRef (hook w')
     = (if refSet (watchIdRef (hook w)) then None else watchIdRef (hook w))
  /\ match user ctx, del with
     | Some u, Committed _ =>
         driverLocations w' = delete (uid u) (driverLocations w)
         /\ isSharing (hook w') = false
     | _, _ =>
         driverLocations w' = driverLocations w
         /\ isSharing (hook w') = isSharing (hook w)
     end.
Proof.
  cbn zeta. unfold exec, stopSharing, watchesAfterClear, bind, get, whenRef. cbn.
  repeat break_step; repeat split; congruence.
Qed.

Lemma startSharing_cases (br : Browser) (ctx : Ctx) (perm pos : Geo.Outcome)
    (wr del : StoreOutcome) (w : World) :
  let w' := exec (startSharing br ctx perm pos wr del) w in
  sameSession w w'
  \/ (exists u doc,
        user ctx = Some u
        /\ driverLocations w' = <[uid u := doc]> (driverLocations w)
        /\ isSharing (hook w') = true
        /\ watchIdRef (hook w') = Some (nextWatchId w)
        /\ watches w' = <[nextWatchId w := ctx]> (watchesAfterClear w)
        /\ nextWatchId w' = nextWatchId w + 1
        /\ inflight w' = inflight w).
Proof.
  cbn zeta.
  unfold exec, startSharing, requestPermission, requestLocationPermission,
    startLocationSharing, getCurrentPosition, startWatchingPosition, watchPosition,
    isLocationAvailable, watchesAfterClear, sameSession, bind, get, whenRef.
  destruct (isDriver ctx), (isVerified ctx); cbn; auto 10.
  destruct (user ctx) as [u|]; cbn; auto 10.
  destruct (userProfile ctx) as [profile|]; cbn; auto 10.
  destruct (hasGeolocation br); cbn.
  2: { destruct (mustRequest (locationPermission (hook w))); cbn; auto 10. }
  destruct (mustRequest (locationPermission (hook w))); cbn.
  - destruct perm; cbn; auto 10.
    destruct pos; cbn; auto 10.
    destruct wr; cbn; auto 10.
    right. exists u. eexists.
    destruct (watchIdRef (hook w)) as [id|]; cbn;
      [destruct (id =? 0); cbn |]; repeat split; reflexivity.
  - destruct pos; cbn; auto 10.
    destruct wr; cbn; auto 10.
    right. exists u. eexists.
    destruct (watchIdRef (hook w)) as [id|]; cbn;
      [destruct (id =? 0); cbn |]; repeat split; reflexivity.
Qed.

Lemma initial_invariant (driverId : string) : sessionInvariant driverId initialWorld.
Proof.
  unfold sessionInvariant, initialWorld. cbn.
  split; [| split; [reflexivity | split; [lia | split]]].
  - split; [intros [d Hd]; rewrite lookup_empty in Hd; discriminate | discriminate].
  - discriminate.
  - intros id ctx Hin. rewrite lookup_empty in Hin. discriminate.
Qed.

Lemma sameSession_invariant (driverId : string) (w w' : World) :
  sameSession w w' -> sessionInvariant driverId w -> sessionInvariant driverId w'.
Proof.
  intros (Hs & Hi & Hr & Hw & Hn & Hq) (I1 & I2 & I3 & I4 & I5).
  unfold sessionInvariant. rewrite Hs, Hi, Hr, Hw, Hn, Hq. auto.
Qed.

Lemma setError_sameSession (msg : string) (w : World) :
  sameSession w (exec (setError msg) w).
Proof. repeat split. Qed.

(** Under the invariant the hook's ref names every registered watch, so
    clearing it leaves none. *)
Lemma watchesAfterClear_none (driverId : string) (w : World) (id : Z) :
  sessionInvariant driverId w -> watchesAfterClear w !! id = None.
Proof.
  intros (_ & _ & _ & I4 & I5). unfold watchesAfterClear.
  destruct (watchesAfterClear w !! id) as [ctx|] eqn:E; unfold watchesAfterClear in E;
    destruct (watchIdRef (hook w)) as [r|] eqn:Er.
  - pose proof (I4 r eq_refl) as Hr.
    assert (Hset : refSet (Some r) = true).
    { unfold refSet. destruct (r =? 0) eqn:E0; [apply Z.eqb_eq in E0; lia | reflexivity]. }
    rewrite Hset in E |- *.
    apply lookup_delete_Some in E as [Hne Hin].
    destruct (I5 id ctx Hin) as (Href & _). congruence.
  - destruct (I5 id ctx E) as (Href & _). congruence.
  - exact E.
  - exact E.
Qed.

Lemma stopSharing_invariant (driverId : string) (ctx : Ctx) (del : StoreOutcome) (w : World) :
  (forall u, user ctx = Some u -> uid u = driverId) ->
  sessionInvariant driverId w ->
  sessionInvariant driverId (exec (stopSharing ctx del) w).
Proof.
  intros Hctx Inv.
  pose proof (watchesAfterClear_none driverId w) as Hnone.
  destruct (stopSharing_summary ctx del w) as (Hq & Hn & Hw & Hr & Hcase).
  destruct Inv as (I1 & I2 & I3 & I4 & I5).
  assert (Hnone' : forall id, watchesAfterClear w !! id = None).
  { intros id. apply Hnone. unfold sessionInvariant. auto. }
  unfold sessionInvariant. rewrite Hq, Hn, Hw, Hr.
  split; [| split; [exact I2 | split; [exact I3 | split]]].
  - destruct (user ctx) as [u|] eqn:Eu; [destruct del |].
    + destruct Hcase as [-> ->]. rewrite (Hctx u eq_refl), lookup_delete_eq.
      split; [intros [? ?]; discriminate | discriminate].
    + destruct Hcase as [-> ->]. exact I1.
    + destruct Hcase as [-> ->]. exact I1.
  - intros id. destruct (refSet (watchIdRef (hook w))); [discriminate | apply I4].
  - intros id c Hin. rewrite Hnone' in Hin. discriminate.
Qed.

Lemma startSharing_invariant (driverId : string) (br : Browser) (ctx : Ctx)
    (perm pos : Geo.Outcome) (wr del : StoreOutcome) (w : World) :
  (forall u, user ctx = Some u -> uid u = driverId) ->
  sessionInvariant driverId w ->
  sessionInvariant driverId (exec (startSharing br ctx perm pos wr del) w).
Proof.
  intros Hctx Inv.
  destruct (startSharing_cases br ctx perm pos wr del w)
    as [Hsame | (u & doc & Hu & Hs & Hi & Hr & Hw & Hn & Hq)].
  - exact (sameSession_invariant driverId _ _ Hsame Inv).
  - pose proof (watchesAfterClear_none driverId w) as Hnone.
    destruct Inv as (I1 & I2 & I3 & I4 & I5).
    assert (Hnone' : forall id, watchesAfterClear w !! id = None).
    { intros id. apply Hnone. unfold sessionInvariant. auto. }
    unfold sessionInvariant. rewrite Hs, Hi, Hr, Hw, Hn, Hq.
    split; [| split; [exact I2 | split; [lia | split]]].
    + rewrite (Hctx u Hu), lookup_insert_eq. split; eauto.
    + intros id [= <-]. exact I3.
    + intros id c Hin. apply lookup_insert_Some in Hin as [[<- <-] | [_ Hin]].
      * split; [reflexivity |]. split; [reflexivity |]. exists u. auto.
      * rewrite Hnone' in Hin. discriminate.
Qed.

Lemma position_turn_invariant (driverId : string) (br : Browser) (id : Z)
    (p : Geo.Position) (o : StoreOutcome) (w : World) :
  sessionInvariant driverId w ->
  sessionInvariant driverId (turn br (TPosition id p o) w).
Proof.
  intros Inv. unfold turn, events, run. cbn [fold_left].
  destruct (watches w !! id) as [ctx|] eqn:Hw.
  - destruct Inv as (I1 & I2 & I3 & I4 & I5).
    destruct (I5 id ctx Hw) as (Href & Hsh & u & Hu & Hd).
    destruct (delivered_position_issues br w id ctx u p Hw Hu) as (Hq' & _ & Hs' & Hw').
    assert (Hhook : isSharing (hook (step br (PositionDelivered id p) w)) = isSharing (hook w)
                    /\ watchIdRef (hook (step br (PositionDelivered id p) w))
                       = watchIdRef (hook w)
                    /\ nextWatchId (step br (PositionDelivered id p) w) = nextWatchId w).
    { unfold step. rewrite Hw. unfold positionCallback_issue. rewrite Hu. repeat split. }
    destruct Hhook as (Hsh' & Href' & Hn').
    rewrite I2 in Hq'. cbn [app] in Hq'.
    set (w1 := step br (PositionDelivered id p) w) in *. clearbody w1.
    destruct (settled_oldest br w1 _ _ o Hq') as (Hq2 & _ & Hw2 & Hs2).
    assert (Hhook2 : isSharing (hook (step br (UpdateSettled 0 o) w1)) = isSharing (hook w1)
                     /\ watchIdRef (hook (step br (UpdateSettled 0 o) w1))
                        = watchIdRef (hook w1)
                     /\ nextWatchId (step br (UpdateSettled 0 o) w1) = nextWatchId w1).
    { unfold step. rewrite Hq'. cbn [lookup list_lookup]. destruct o; repeat split. }
    destruct Hhook2 as (Hsh2 & Href2 & Hn2).
    unfold sessionInvariant.
    rewrite Hq2, Hw2, Hsh2, Href2, Hn2, Hw', Hsh', Href', Hn'.
    split; [| auto].
    rewrite Hs2, Hs'. cbn [fst snd]. rewrite Hd.
    destruct o; [| exact I1].
    rewrite mergeDoc_lookup. split; eauto.
  - assert (E1 : step br (PositionDelivered id p) w = w).
    { unfold step. rewrite Hw. reflexivity. }
    rewrite E1. rewrite settled_nothing; [exact Inv | apply Inv].
Qed.

Lemma turn_invariant (driverId : string) (br : Browser) (t : Turn) (w : World) :
  onBehalfOf driverId t ->
  sessionInvariant driverId w ->
  sessionInvariant driverId (turn br t w).
Proof.
  intros Hby Inv.
  destruct t as [queried | state | ctx perm pos wr del | ctx del | ctx perm pos wr del
                 | id p o | id c msg del].
  - apply (sameSession_invariant driverId w); [| exact Inv].
    unfold turn, events, run, step, exec, checkLocationPermission. cbn.
    destruct (isLocationAvailable br); [destruct queried |]; repeat split.
  - apply (sameSession_invariant driverId w); [| exact Inv]. repeat split.
  - apply startSharing_invariant; [| exact Inv].
    intros u Hu. exact (Hby ctx u eq_refl Hu).
  - apply stopSharing_invariant; [| exact Inv].
    intros u Hu. exact (Hby ctx u eq_refl Hu).
  - unfold turn, events, run. cbn [fold_left step]. unfold toggleSharing.
    rewrite !exec_bind. cbn [result get fst exec snd].
    assert (Inv' : sessionInvariant driverId (exec (setError "") w)).
    { exact (sameSession_invariant driverId _ _ (setError_sameSession "" w) Inv). }
    change (setError "" w).2 with (exec (setError "") w).
    destruct (isSharing (hook (exec (setError "") w))).
    + apply stopSharing_invariant; [| exact Inv'].
      intros u Hu. exact (Hby ctx u eq_refl Hu).
    + apply startSharing_invariant; [| exact Inv'].
      intros u Hu. exact (Hby ctx u eq_refl Hu).
  - apply position_turn_invariant. exact Inv.
  - unfold turn, events, run. cbn [fold_left step].
    destruct (watches w !! id) as [ctx|] eqn:Hw; [| exact Inv].
    rewrite watch_error_always_stops, exec_bind.
    apply stopSharing_invariant.
    + intros u Hu. destruct Inv as (_ & _ & _ & _ & I5).
      destruct (I5 id ctx Hw) as (_ & _ & u' & Hu' & Hd). congruence.
    + exact (sameSession_invariant driverId _ _ (setError_sameSession _ w) Inv).
Qed.

(** For every sequence of turns of a driver's session (calls of start,
    stop and toggle, watch callbacks, permission changes), each run to its
    end, the presence record of the driver exists exactly when the session
    is sharing. *)
Theorem presence_iff_sharing (driverId : string) (br : Browser) (ts : list Turn) :
  Forall (onBehalfOf driverId) ts ->
  let w := runTurns br ts initialWorld in
  sessionInvariant driverId w
  /\ (is_Some (driverLocations w !! driverId) <-> isSharing (hook w) = true)
  /\ (is_Some (driverLocations w !! driverId) <-> Spec.sessionState (hook w) = Spec.Active).
Proof.
  intros Hts. cbn zeta.
  assert (Inv : sessionInvariant driverId (runTurns br ts initialWorld)).
  { unfold runTurns. generalize (initial_invariant driverId).
    generalize initialWorld as w.
    induction Hts as [|t ts Ht _ IH]; intros w Inv; [exact Inv |].
    cbn [fold_left]. apply IH. apply turn_invariant; assumption. }
  split; [exact Inv |]. split; [apply Inv |].
  destruct Inv as (I1 & _). rewrite I1. unfold Spec.sessionState.
  destruct (isSharing (hook (runTurns br ts initialWorld))).
  - tauto.
  - destruct (loading _); [| destruct (String.eqb _ _)]; split; discriminate.
Qed.

Lemma presence_iff_sharing_example :
  Forall (onBehalfOf (uid ann))
    [TStart annCtx (Geo.Ok P1) (Geo.Ok P1) (Committed 100) (Committed 100);
     TPosition 1 P2 (Committed 101);
     TStop annCtx (Committed 102)]
  /\ isSharing (hook (runTurns desktop
                        [TStart annCtx (Geo.Ok P1) (Geo.Ok P1) (Committed 100) (Committed 100);
                         TPosition 1 P2 (Committed 101);
                         TStop annCtx (Committed 102)] initialWorld)) = false
  /\ ~ is_Some (driverLocations
                  (runTurns desktop
                     [TStart annCtx (Geo.Ok P1) (Geo.Ok P1) (Committed 100) (Committed 100);
                      TPosition 1 P2 (Committed 101);
                      TStop annCtx (Committed 102)] initialWorld) !! uid ann).
Proof.
  assert (H : Forall (onBehalfOf (uid ann))
                [TStart annCtx (Geo.Ok P1) (Geo.Ok P1) (Committed 100) (Committed 100);
                 TPosition 1 P2 (Committed 101);
                 TStop annCtx (Committed 102)]).
  { repeat constructor; intros ctx u [= <-] [= <-]; reflexivity. }
  split; [exact H |]. split; [reflexivity |].
  intros Hsome.
  apply (proj1 (proj2 (presence_iff_sharing (uid ann) desktop _ H))) in Hsome.
  discriminate Hsome.
Defined.

(** C1. The record is created by the full write of a successful start and
    deleted by a stop, but the cleanup of the unmount effect only cancels
    the watch: it never touches the store, so after a teardown the record
    of a session that was sharing is still there, and still listed as an
    active driver. *)
Theorem unmount_keeps_presence_record :
  (forall br w, driverLocations (step br Unmounted w) = driverLocations w)
  /\ (let w := run desktop
                 [Start annCtx (Geo.Ok P1) (Geo.Ok P1) (Committed 100) (Committed 100);
                  Unmounted] initialWorld in
      driverLocations w !! uid ann
      = Some (commit 100 (locationData (uid ann) (email ann)
                            {| info_displayName := Some "Ann"; info_busNumber := Some "12";
                               info_route := Some "Route 1" |} P1))
      /\ watches w = ∅
      /\ effects w
         = [GetCurrentPosition {| Geo.enableHighAccuracy := true; Geo.timeout := 15000;
                                  Geo.maximumAge := 10000 |};
            SetDoc (uid ann) false
              (locationData (uid ann) (email ann)
                 {| info_displayName := Some "Ann"; info_busNumber := Some "12";
                    info_route := Some "Route 1" |} P1);
            WatchPosition 1 watchOptions;
            ClearWatch 1]
      /\ BusMap.drv_id <$> Presence.listenToDriverLocations (driverLocations w)
         = ["driver-ann"%string])
  /\ (let w := run desktop
                 [Start annCtx (Geo.Ok P1) (Geo.Ok P1) (Committed 100) (Committed 100);
                  Stop annCtx (Committed 200)] initialWorld in
      driverLocations w !! uid ann = None /\ watches w = ∅).
Proof.
  split; [| split].
  - intros br w. unfold step, exec, unmountCleanup, bind, get, whenRef. cbn.
    destruct (watchIdRef (hook w)) as [id|]; cbn;
      [destruct (id =? 0); cbn |];
      (destruct (updateIntervalRef (hook w)) as [j|]; cbn;
       [destruct (j =? 0); cbn |]); reflexivity.
  - cbn zeta. repeat split; vm_compute; reflexivity.
  - cbn zeta. repeat split; vm_compute; reflexivity.
Qed.

End PresenceInvariant.

(** * Further properties of the code *)

(** ** What the store holds *)

Section StoredRecords.
Import Sharing Presence Records Examples Samples.

Lemma commit_no_sentinel (t : Z) (d : Doc) (k : string) :
  commit t d !! k <> Some VServerTimestamp.
Proof.
  rewrite commit_lookup. destruct (d !! k) as [[]|]; discriminate.
Qed.

Lemma created_doc_committed (t : Z) (userId userEmail : string) (info : ShareInfo)
    (p : Geo.Position) :
  committedDoc (commit t (locationData userId userEmail info p)).
Proof.
  split; [| split; [| split]].
  - unfold isActiveDoc. rewrite commit_lookup. reflexivity.
  - exists t. split; apply locationData_times; auto.
  - exists (Geo.latitude (Geo.coords p)), (Geo.longitude (Geo.coords p)).
    split; rewrite commit_lookup; reflexivity.
  - apply commit_no_sentinel.
Qed.

Lemma updated_doc_committed (t : Z) (p : Geo.Position) (old : Doc) :
  (forall k, old !! k <> Some VServerTimestamp) ->
  committedDoc (commit t (updateData p) ∪ old).
Proof.
  intros Hold. split; [| split; [| split]].
  - unfold isActiveDoc.
    rewrite (lookup_union_Some_l _ _ _ (VBool true)); [reflexivity |].
    rewrite commit_lookup. reflexivity.
  - exists t. split; apply lookup_union_Some_l; apply updateData_times; auto.
  - exists (Geo.latitude (Geo.coords p)), (Geo.longitude (Geo.coords p)).
    split; apply lookup_union_Some_l; rewrite commit_lookup; reflexivity.
  - intros k Hk. apply lookup_union_Some_raw in Hk as [Hk | [_ Hk]].
    + exact (commit_no_sentinel _ _ _ Hk).
    + exact (Hold _ Hk).
Qed.

Lemma startSharing_store (br : Browser) (ctx : Ctx) (perm pos : Geo.Outcome)
    (wr del : StoreOutcome) (w : World) :
  let w' := exec (startSharing br ctx perm pos wr del) w in
  inflight w' = inflight w
  /\ (driverLocations w' = driverLocations w
      \/ exists u profile p t,
           user ctx = Some u /\ userProfile ctx = Some profile
           /\ pos = Geo.Ok p /\ wr = Committed t
           /\ driverLocations w'
              = <[uid u := commit t (locationData (uid u) (email u) (shareInfoOf profile) p)]>
                  (driverLocations w)).
Proof.
  cbn zeta.
  unfold exec, startSharing, requestPermission, requestLocationPermission,
    startLocationSharing, getCurrentPosition, startWatchingPosition, watchPosition,
    isLocationAvailable, shareInfoOf, bind, get, whenRef.
  destruct (isDriver ctx), (isVerified ctx); cbn; auto.
  destruct (user ctx) as [u|]; cbn; auto.
  destruct (userProfile ctx) as [profile|]; cbn; auto.
  destruct (hasGeolocation br); cbn.
  2: { destruct (mustRequest (locationPermission (hook w))); cbn; auto. }
  destruct (mustRequest (locationPermission (hook w))); cbn.
  - destruct perm as [q | c0 m0]; cbn; auto.
    destruct pos as [p | c m]; cbn; auto.
    destruct wr as [t | m]; cbn; auto.
    destruct (watchIdRef (hook w)) as [id|]; cbn;
      [destruct (id =? 0); cbn |];
      (split; [reflexivity |]; right; exists u, profile, p, t; auto 10).
  - destruct pos as [p | c m]; cbn; auto.
    destruct wr as [t | m]; cbn; auto.
    destruct (watchIdRef (hook w)) as [id|]; cbn;
      [destruct (id =? 0); cbn |];
      (split; [reflexivity |]; right; exists u, profile, p, t; auto 10).
Qed.

Lemma storeInvariant_same (w w' : World) :
  driverLocations w' = driverLocations w -> inflight w' = inflight w ->
  storeInvariant w -> storeInvariant w'.
Proof. unfold storeInvariant. intros -> ->. auto. Qed.

Lemma stopSharing_storeInvariant (ctx : Ctx) (del : StoreOutcome) (w : World) :
  storeInvariant w -> storeInvariant (exec (stopSharing ctx del) w).
Proof.
  intros [Hst Hq].
  destruct (stopSharing_summary ctx del w) as (Hq' & _ & _ & _ & Hcase).
  split; [| rewrite Hq'; exact Hq].
  destruct (user ctx) as [u|]; [destruct del |]; destruct Hcase as [-> _];
    try exact Hst.
  apply map_Forall_delete. exact Hst.
Qed.

Lemma startSharing_storeInvariant (br : Browser) (ctx : Ctx) (perm pos : Geo.Outcome)
    (wr del : StoreOutcome) (w : World) :
  storeInvariant w -> storeInvariant (exec (startSharing br ctx perm pos wr del) w).
Proof.
  intros [Hst Hq].
  destruct (startSharing_store br ctx perm pos wr del w)
    as (Hq' & [Hs | (u & profile & p & t & _ & _ & _ & _ & Hs)]).
  - split; [rewrite Hs; exact Hst | rewrite Hq'; exact Hq].
  - split; [| rewrite Hq'; exact Hq].
    rewrite Hs. apply map_Forall_insert_2; [apply created_doc_committed | exact Hst].
Qed.

(** Every event keeps the store well formed, in whatever order the writes
    in flight settle. *)
Lemma step_storeInvariant (br : Browser) (e : Event) (w : World) :
  storeInvariant w -> storeInvariant (step br e w).
Proof.
  intros Inv.
  destruct e as [queried | state | ctx perm pos wr del | ctx del | ctx perm pos wr del
                 | id p | i o | id c msg del | ].
  - apply (storeInvariant_same w); [| | exact Inv];
      unfold step, exec, checkLocationPermission; cbn;
      (destruct (isLocationAvailable br); [destruct queried |]; reflexivity).
  - apply (storeInvariant_same w); [reflexivity | reflexivity | exact Inv].
  - apply startSharing_storeInvariant. exact Inv.
  - apply stopSharing_storeInvariant. exact Inv.
  - cbn [step]. unfold toggleSharing. rewrite !exec_bind. cbn [result get fst exec snd].
    assert (Inv' : storeInvariant (exec (setError "") w)).
    { apply (storeInvariant_same w); [reflexivity | reflexivity | exact Inv]. }
    change (setError "" w).2 with (exec (setError "") w).
    destruct (isSharing (hook (exec (setError "") w))).
    + apply stopSharing_storeInvariant. exact Inv'.
    + apply startSharing_storeInvariant. exact Inv'.
  - cbn [step]. destruct (watches w !! id) as [ctx|]; [| exact Inv].
    unfold positionCallback_issue.
    destruct (user ctx) as [u|].
    + destruct Inv as [Hst Hq]. split; [exact Hst |].
      cbn. apply Forall_app. split; [exact Hq |].
      constructor; [exists p; reflexivity | constructor].
    + apply (storeInvariant_same w); [reflexivity | reflexivity | exact Inv].
  - cbn [step]. destruct (inflight w !! i) as [wr|] eqn:Hi; [| exact Inv].
    destruct Inv as [Hst Hq].
    assert (Hq' : Forall (fun wr => exists p, snd wr = updateData p) (delete i (inflight w))).
    { apply Forall_delete. exact Hq. }
    assert (Hwr : exists p, snd wr = updateData p).
    { rewrite Forall_lookup in Hq. exact (Hq i wr Hi). }
    destruct Hwr as [p Hp].
    destruct o as [t | m]; cbn; (split; [| exact Hq']); [| exact Hst].
    unfold mergeDoc. rewrite Hp. apply map_Forall_insert_2; [| exact Hst].
    apply updated_doc_committed.
    destruct (driverLocations w !! wr.1) as [old|] eqn:Hold; cbn.
    + intros k. apply (Hst _ _ Hold).
    + intros k. rewrite lookup_empty. discriminate.
  - cbn [step]. destruct (watches w !! id) as [ctx|]; [| exact Inv].
    rewrite watch_error_always_stops, exec_bind.
    apply stopSharing_storeInvariant.
    apply (storeInvariant_same w); [reflexivity | reflexivity | exact Inv].
  - apply (storeInvariant_same w); [| | exact Inv];
      unfold step, exec, unmountCleanup, bind, get, whenRef; cbn;
      (destruct (watchIdRef (hook w)) as [id|]; cbn;
       [destruct (id =? 0); cbn |];
       (destruct (updateIntervalRef (hook w)) as [j|]; cbn;
        [destruct (j =? 0); cbn |]); reflexivity).
Qed.

Lemma run_storeInvariant (br : Browser) (es : list Event) (w : World) :
  storeInvariant w -> storeInvariant (run br es w).
Proof.
  revert w. induction es as [|e es IH]; intros w Inv; [exact Inv |].
  cbn [run fold_left]. apply IH. apply step_storeInvariant. exact Inv.
Qed.

Lemma elem_of_listenToDriverLocations (st : gmap string Doc) (d : BusMap.Driver) :
  d ∈ listenToDriverLocations st
  <-> exists id doc, st !! id = Some doc /\ isActiveDoc doc = true /\ d = driverOfDoc id doc.
Proof.
  unfold listenToDriverLocations. rewrite list_elem_of_fmap. split.
  - intros ([id doc] & -> & Hin). apply list_elem_of_filter in Hin as [Hact Hin].
    apply elem_of_map_to_list in Hin. exists id, doc. auto.
  - intros (id & doc & Hst & Hact & ->). exists (id, doc). split; [reflexivity |].
    apply list_elem_of_filter. split; [exact Hact |].
    apply elem_of_map_to_list. exact Hst.
Qed.

Lemma settled_committed_store (br : Browser) (w : World) (i : nat) (wr : string * Doc)
    (t : Z) :
  inflight w !! i = Some wr ->
  driverLocations (step br (UpdateSettled i (Committed t)) w)
  = mergeDoc (fst wr) (commit t (snd wr)) (driverLocations w).
Proof. intros Hi. unfold step. rewrite Hi. reflexivity. Qed.

Lemma initial_storeInvariant : storeInvariant initialWorld.
Proof. split; [apply map_Forall_empty | constructor]. Qed.

(** X1. Whatever events follow and in whatever order the writes settle,
    every record in the collection is active, has numeric coordinates and
    carries one store-assigned time in both [timestamp] and [lastSeen],
    never the [serverTimestamp()] sentinel; so the listener lists it. *)
Theorem stored_records_stay_well_formed
    (br : Browser) (es : list Event) (w : World) (id : string) (doc : Doc) :
  storeInvariant w ->
  driverLocations (run br es w) !! id = Some doc ->
  committedDoc doc
  /\ driverOfDoc id doc ∈ listenToDriverLocations (driverLocations (run br es w))
  /\ (exists t, BusMap.drv_timestamp (driverOfDoc id doc) = Some t
               /\ BusMap.drv_lastSeen (driverOfDoc id doc) = Some t)
  /\ (exists lat lng, BusMap.drv_latitude (driverOfDoc id doc) = Js.Num lat
                     /\ BusMap.drv_longitude (driverOfDoc id doc) = Js.Num lng).
Proof.
  intros Inv Hdoc.
  destruct (run_storeInvariant br es w Inv) as [Hst _].
  pose proof (Hst id doc Hdoc) as Hok.
  destruct Hok as (Hact & (t & Ht & Hl) & (lat & lng & Hlat & Hlng) & Hs).
  split; [repeat split; eauto |].
  split.
  { apply elem_of_listenToDriverLocations. exists id, doc. auto. }
  split.
  - exists t. unfold driverOfDoc, timeField. cbn. rewrite Ht, Hl. auto.
  - exists lat, lng. unfold driverOfDoc, numberField. cbn. rewrite Hlat, Hlng. auto.
Qed.

Lemma stored_records_stay_well_formed_witness :
  storeInvariant pendingWorld
  /\ driverLocations (run desktop [UpdateSettled 0 (Committed 101)] pendingWorld) !! uid ann
     = Some (commit 101 (updateData P2))
  /\ committedDoc (commit 101 (updateData P2)).
Proof.
  assert (Inv : storeInvariant pendingWorld).
  { split; [apply map_Forall_empty |].
    constructor; [exists P2; reflexivity | constructor]. }
  assert (H : driverLocations (run desktop [UpdateSettled 0 (Committed 101)] pendingWorld)
              !! uid ann = Some (commit 101 (updateData P2))).
  { cbn [run fold_left]. rewrite (settled_committed_store desktop pendingWorld 0 _ 101 eq_refl).
    rewrite mergeDoc_lookup. cbn [pendingWorld driverLocations snd].
    rewrite lookup_empty. cbn [default]. rewrite (right_id_L ∅ (∪)). reflexivity. }
  split; [exact Inv |]. split; [exact H |].
  exact (proj1 (stored_records_stay_well_formed desktop _ pendingWorld _ _ Inv H)).
Defined.

(** X2. An update that settles on an existing record replaces exactly the
    eight fields it carries, [latitude], [longitude], [accuracy],
    [heading], [speed], [timestamp], [lastSeen] and [isActive], each with
    the value of the update, and keeps every other field of the record;
    it touches no other record. *)
Theorem committed_update_keeps_other_fields
    (br : Browser) (w : World) (i : nat) (userId : string) (p : Geo.Position)
    (t : Z) (old : Doc) :
  inflight w !! i = Some (userId, updateData p) ->
  driverLocations w !! userId = Some old ->
  let st' := driverLocations (step br (UpdateSettled i (Committed t)) w) in
  exists doc,
    st' !! userId = Some doc
    /\ (forall k, updateData p !! k = None -> doc !! k = old !! k)
    /\ (forall k, k ∈ ["userId"; "email"; "displayName"; "busNumber"; "route"; "createdAt"]
                  -> doc !! k = old !! k)
    /\ doc !! "latitude" = Some (VNumber (Geo.latitude (Geo.coords p)))
    /\ doc !! "longitude" = Some (VNumber (Geo.longitude (Geo.coords p)))
    /\ doc !! "timestamp" = Some (VTimestamp t)
    /\ doc !! "lastSeen" = Some (VTimestamp t)
    /\ doc !! "accuracy" = Some (VNumber (Geo.accuracy (Geo.coords p)))
    /\ doc !! "heading" = Some (VNumber (Js.numOrZero (Geo.heading (Geo.coords p))))
    /\ doc !! "speed" = Some (VNumber (Js.numOrZero (Geo.speed (Geo.coords p))))
    /\ doc !! "isActive" = Some (VBool true)
    /\ (forall k, k ∉ ["latitude"; "longitude"; "accuracy"; "heading"; "speed";
                       "timestamp"; "lastSeen"; "isActive"]
                  -> doc !! k = old !! k)
    /\ (forall other, other <> userId -> st' !! other = driverLocations w !! other).
Proof.
  intros Hi Hold. cbn zeta.
  rewrite (settled_committed_store br w i _ t Hi). cbn [fst snd].
  exists (commit t (updateData p) ∪ old).
  assert (Hkeep : forall k, updateData p !! k = None ->
                    (commit t (updateData p) ∪ old) !! k = old !! k).
  { intros k Hk. apply lookup_union_r. rewrite commit_lookup, Hk. reflexivity. }
  split; [rewrite mergeDoc_lookup, Hold; reflexivity |].
  split; [exact Hkeep |].
  split.
  { intros k Hk. apply Hkeep.
    repeat (apply elem_of_cons in Hk as [-> | Hk]; [reflexivity |]).
    apply elem_of_nil in Hk. contradiction. }
  do 8 (split; [apply lookup_union_Some_l; rewrite commit_lookup; reflexivity |]).
  split.
  { intros k Hk. apply Hkeep. unfold updateData.
    apply not_elem_of_list_to_map_1. exact Hk. }
  intros other Hne. unfold mergeDoc. apply lookup_insert_ne. congruence.
Qed.

Lemma committed_update_keeps_other_fields_witness :
  inflight namedWorld !! 0%nat = Some (uid ann, updateData P2)
  /\ driverLocations namedWorld !! uid ann = Some {[ "displayName" := VString "Ann" ]}
  /\ exists doc,
       driverLocations (step desktop (UpdateSettled 0 (Committed 101)) namedWorld) !! uid ann
       = Some doc
       /\ doc !! "displayName" = Some (VString "Ann")
       /\ doc !! "timestamp" = Some (VTimestamp 101).
Proof.
  assert (Hi : inflight namedWorld !! 0%nat = Some (uid ann, updateData P2)) by reflexivity.
  assert (Hold : driverLocations namedWorld !! uid ann
                 = Some {[ "displayName" := VString "Ann" ]}).
  { cbn [namedWorld driverLocations]. apply lookup_singleton_eq. }
  split; [exact Hi |]. split; [exact Hold |].
  destruct (committed_update_keeps_other_fields desktop _ 0 _ P2 101 _ Hi Hold)
    as (doc & Hdoc & _ & Hkeep & _ & _ & Ht & _).
  exists doc. split; [exact Hdoc |]. split; [| exact Ht].
  rewrite (Hkeep "displayName").
  - apply lookup_singleton_eq.
  - apply elem_of_cons. right. apply elem_of_cons. right.
    apply elem_of_cons. left. reflexivity.
Defined.

(** X3. An update that settles when the driver has no record (a merge on
    an absent document) creates one from the eight update fields alone: the
    listener then shows the driver at the position, without name, bus
    number or route. *)
Theorem committed_update_on_absent_record
    (br : Browser) (w : World) (i : nat) (userId : string) (p : Geo.Position) (t : Z) :
  inflight w !! i = Some (userId, updateData p) ->
  driverLocations w !! userId = None ->
  let st' := driverLocations (step br (UpdateSettled i (Committed t)) w) in
  st' !! userId = Some (commit t (updateData p))
  /\ driverOfDoc userId (commit t (updateData p)) ∈ listenToDriverLocations st'
  /\ driverOfDoc userId (commit t (updateData p))
     = {| BusMap.drv_id := userId;
          BusMap.drv_displayName := None;
          BusMap.drv_busNumber := None;
          BusMap.drv_route := None;
          BusMap.drv_latitude := Js.Num (Geo.latitude (Geo.coords p));
          BusMap.drv_longitude := Js.Num (Geo.longitude (Geo.coords p));
          BusMap.drv_timestamp := Some t;
          BusMap.drv_lastSeen := Some t |}.
Proof.
  intros Hi Hnone. cbn zeta.
  rewrite (settled_committed_store br w i _ t Hi). cbn [fst snd].
  assert (Hdoc : mergeDoc userId (commit t (updateData p)) (driverLocations w) !! userId
                 = Some (commit t (updateData p))).
  { rewrite mergeDoc_lookup, Hnone. cbn. rewrite (right_id_L ∅ (∪)). reflexivity. }
  split; [exact Hdoc |]. split.
  - apply elem_of_listenToDriverLocations. exists userId, (commit t (updateData p)).
    split; [exact Hdoc |]. split; [| reflexivity].
    unfold isActiveDoc. rewrite commit_lookup. reflexivity.
  - unfold driverOfDoc, stringField, numberField, timeField.
    rewrite !commit_lookup. reflexivity.
Qed.

Lemma committed_update_on_absent_record_witness :
  inflight pendingWorld !! 0%nat = Some (uid ann, updateData P2)
  /\ driverLocations pendingWorld !! uid ann = None
  /\ driverLocations (step desktop (UpdateSettled 0 (Committed 102)) pendingWorld) !! uid ann
     = Some (commit 102 (updateData P2)).
Proof.
  assert (Hi : inflight pendingWorld !! 0%nat = Some (uid ann, updateData P2)) by reflexivity.
  assert (Hn : driverLocations pendingWorld !! uid ann = None) by apply lookup_empty.
  split; [exact Hi |]. split; [exact Hn |].
  exact (proj1 (committed_update_on_absent_record desktop _ 0 _ P2 102 Hi Hn)).
Defined.

End StoredRecords.

(** ** Watches, flags and failures of the session *)

Section SessionBehaviour.
Import Sharing Schedule Records SessionFacts Suspended Examples Samples.

Lemma watchesAfterClear_empty (w : World) :
  watchInvariant w -> watchesAfterClear w = ∅.
Proof.
  intros (_ & I2 & I3). apply map_empty. intros id.
  unfold watchesAfterClear.
  destruct (watchIdRef (hook w)) as [r|] eqn:Er.
  - pose proof (I2 r eq_refl) as Hr.
    assert (Hset : refSet (Some r) = true).
    { unfold refSet. destruct (r =? 0) eqn:E0; [apply Z.eqb_eq in E0; lia | reflexivity]. }
    rewrite Hset.
    destruct (delete r (watches w) !! id) as [ctx|] eqn:E; [| reflexivity].
    apply lookup_delete_Some in E as [Hne Hin].
    pose proof (I3 id ctx Hin). congruence.
  - destruct (watches w !! id) as [ctx|] eqn:E; [| reflexivity].
    pose proof (I3 id ctx E). congruence.
Qed.

Lemma watchInvariant_same (w w' : World) :
  watches w' = watches w -> watchIdRef (hook w') = watchIdRef (hook w) ->
  nextWatchId w' = nextWatchId w ->
  watchInvariant w -> watchInvariant w'.
Proof. unfold watchInvariant. intros -> -> ->. auto. Qed.

Lemma stopSharing_watches (ctx : Ctx) (del : StoreOutcome) (w : World) :
  watchInvariant w ->
  watchInvariant (exec (stopSharing ctx del) w)
  /\ watches (exec (stopSharing ctx del) w) = ∅.
Proof.
  intros Inv. pose proof (watchesAfterClear_empty w Inv) as Hnone.
  destruct (stopSharing_summary ctx del w) as (_ & Hn & Hw & Hr & _).
  destruct Inv as (I1 & I2 & I3).
  split; [| rewrite Hw; exact Hnone].
  unfold watchInvariant. rewrite Hn, Hw, Hr, Hnone.
  split; [exact I1 |]. split.
  - intros id. destruct (refSet (watchIdRef (hook w))); [discriminate | apply I2].
  - intros id c Hin. rewrite lookup_empty in Hin. discriminate.
Qed.

Lemma startSharing_watches (br : Browser) (ctx : Ctx) (perm pos : Geo.Outcome)
    (wr del : StoreOutcome) (w : World) :
  watchInvariant w -> watchInvariant (exec (startSharing br ctx perm pos wr del) w).
Proof.
  intros Inv. pose proof (watchesAfterClear_empty w Inv) as Hnone.
  destruct (startSharing_cases br ctx perm pos wr del w)
    as [(_ & _ & Hr & Hw & Hn & _) | (u & doc & _ & _ & _ & Hr & Hw & Hn & _)].
  - exact (watchInvariant_same w _ Hw Hr Hn Inv).
  - destruct Inv as (I1 & I2 & I3).
    unfold watchInvariant. rewrite Hr, Hw, Hn, Hnone.
    split; [lia |]. split.
    + intros id [= <-]. exact I1.
    + intros id c Hin. apply lookup_insert_Some in Hin as [[<- _] | [_ Hin]];
        [reflexivity | rewrite lookup_empty in Hin; discriminate].
Qed.

Lemma unmount_watches (w : World) :
  watches (exec unmountCleanup w) = watchesAfterClear w
  /\ watchIdRef (hook (exec unmountCleanup w)) = watchIdRef (hook w)
  /\ nextWatchId (exec unmountCleanup w) = nextWatchId w.
Proof.
  unfold exec, unmountCleanup, watchesAfterClear, bind, get, whenRef, refSet. cbn.
  destruct (watchIdRef (hook w)) as [id|] eqn:Er; cbn;
    [destruct (id =? 0); cbn |];
    (destruct (updateIntervalRef (hook w)) as [j|]; cbn;
     [destruct (j =? 0); cbn |]); auto.
Qed.

Lemma step_watchInvariant (br : Browser) (e : Event) (w : World) :
  watchInvariant w -> watchInvariant (step br e w).
Proof.
  intros Inv.
  destruct e as [queried | state | ctx perm pos wr del | ctx del | ctx perm pos wr del
                 | id p | i o | id c msg del | ].
  - apply (watchInvariant_same w); [| | | exact Inv];
      unfold step, exec, checkLocationPermission; cbn;
      (destruct (isLocationAvailable br); [destruct queried |]; reflexivity).
  - apply (watchInvariant_same w); [reflexivity | reflexivity | reflexivity | exact Inv].
  - apply startSharing_watches. exact Inv.
  - apply stopSharing_watches. exact Inv.
  - cbn [step]. unfold toggleSharing. rewrite !exec_bind. cbn [result get fst exec snd].
    assert (Inv' : watchInvariant (exec (setError "") w)).
    { apply (watchInvariant_same w); [reflexivity | reflexivity | reflexivity | exact Inv]. }
    change (setError "" w).2 with (exec (setError "") w).
    destruct (isSharing (hook (exec (setError "") w))).
    + apply stopSharing_watches. exact Inv'.
    + apply startSharing_watches. exact Inv'.
  - cbn [step]. destruct (watches w !! id) as [ctx|]; [| exact Inv].
    unfold positionCallback_issue.
    destruct (user ctx) as [u|];
      (apply (watchInvariant_same w); [reflexivity | reflexivity | reflexivity | exact Inv]).
  - cbn [step]. destruct (inflight w !! i) as [wr|]; [| exact Inv].
    destruct o;
      (apply (watchInvariant_same w); [reflexivity | reflexivity | reflexivity | exact Inv]).
  - cbn [step]. destruct (watches w !! id) as [ctx|]; [| exact Inv].
    rewrite watch_error_always_stops, exec_bind.
    apply stopSharing_watches.
    apply (watchInvariant_same w); [reflexivity | reflexivity | reflexivity | exact Inv].
  - cbn [step]. destruct (unmount_watches w) as (Hw & Hr & Hn).
    pose proof (watchesAfterClear_empty w Inv) as Hnone.
    destruct Inv as (I1 & I2 & I3).
    unfold watchInvariant. rewrite Hw, Hr, Hn, Hnone.
    split; [exact I1 |]. split; [exact I2 |].
    intros id c Hin. rewrite lookup_empty in Hin. discriminate.
Qed.

Lemma run_watchInvariant (br : Browser) (es : list Event) (w : World) :
  watchInvariant w -> watchInvariant (run br es w).
Proof.
  revert w. induction es as [|e es IH]; intros w Inv; [exact Inv |].
  cbn [run fold_left]. apply IH. apply step_watchInvariant. exact Inv.
Qed.

Lemma initial_watchInvariant : watchInvariant initialWorld.
Proof.
  split; [reflexivity |]. split; [discriminate |].
  intros id ctx Hin. cbn in Hin. rewrite lookup_empty in Hin. discriminate.
Qed.

(** X4. At every moment at most one watch is registered with the device,
    and it is the one whose id the hook holds: a new start cancels the old
    watch before it registers the new one. *)
Theorem at_most_one_watch (br : Browser) (es : list Event) :
  let w := run br es initialWorld in
  watches w = ∅
  \/ exists id ctx, watches w = {[ id := ctx ]}
                    /\ watchIdRef (hook w) = Some id /\ 0 < id.
Proof.
  cbn zeta.
  destruct (run_watchInvariant br es initialWorld initial_watchInvariant) as (_ & I2 & I3).
  set (w := run br es initialWorld) in *.
  destruct (watchIdRef (hook w)) as [r|] eqn:Er.
  - destruct (watches w !! r) as [ctx|] eqn:Ew.
    + right. exists r, ctx. split; [| split; [reflexivity | apply I2; reflexivity]].
      apply map_eq. intros j. destruct (decide (j = r)) as [-> | Hne].
      * rewrite lookup_singleton_eq. exact Ew.
      * rewrite lookup_singleton_ne by congruence.
        destruct (watches w !! j) as [c|] eqn:Ej; [| reflexivity].
        pose proof (I3 j c Ej). congruence.
    + left. apply map_empty. intros j.
      destruct (watches w !! j) as [c|] eqn:Ej; [| reflexivity].
      pose proof (I3 j c Ej). congruence.
  - left. apply map_empty. intros j.
    destruct (watches w !! j) as [c|] eqn:Ej; [| reflexivity].
    pose proof (I3 j c Ej). congruence.
Qed.

(** With nothing run in between, [startSharing] is its beginning, the
    call of the service and [startSharing_resume]. *)
Lemma startSharing_split (br : Browser) (ctx : Ctx) (u : User) (profile : Profile)
    (perm pos : Geo.Outcome) (wr del : StoreOutcome) (w : World) :
  isDriver ctx = true -> isVerified ctx = true ->
  user ctx = Some u -> userProfile ctx = Some profile ->
  startSharing br ctx perm pos wr del w
  = startSharing_uninterrupted br ctx u profile perm pos wr del w.
Proof.
  intros Hd Hv Hu Hp.
  unfold startSharing, startSharing_uninterrupted, startSharing_begin, startSharing_resume,
    shareInfoOf.
  rewrite Hd, Hv, Hu, Hp. cbn [negb orb].
  unfold bind, get.
  cbn -[requestPermission startLocationSharing startWatchingPosition mustRequest].
  destruct (mustRequest (locationPermission (hook w)));
    cbn -[requestPermission startLocationSharing startWatchingPosition].
  - lazymatch goal with
    | |- context [requestPermission br perm ?x] =>
        destruct (requestPermission br perm x) as [permResult w1]
    end.
    destruct (success permResult);
      cbn -[requestPermission startLocationSharing startWatchingPosition]; [| reflexivity].
    lazymatch goal with
    | |- context [startLocationSharing br ?a ?b ?c pos wr ?x] =>
        destruct (startLocationSharing br a b c pos wr x) as [result w2]
    end.
    destruct (success result);
      cbn -[requestPermission startLocationSharing startWatchingPosition]; [| reflexivity].
    lazymatch goal with
    | |- context [startWatchingPosition br ctx del ?x] =>
        destruct (startWatchingPosition br ctx del x) as [[] w3]
    end.
    reflexivity.
  - lazymatch goal with
    | |- context [startLocationSharing br ?a ?b ?c pos wr ?x] =>
        destruct (startLocationSharing br a b c pos wr x) as [result w2]
    end.
    destruct (success result);
      cbn -[requestPermission startLocationSharing startWatchingPosition]; [| reflexivity].
    lazymatch goal with
    | |- context [startWatchingPosition br ctx del ?x] =>
        destruct (startWatchingPosition br ctx del x) as [[] w3]
    end.
    reflexivity.
Qed.

(** A start that resumes with success registers a watch, whatever the
    state it finds. *)
Lemma resume_registers_watch (br : Browser) (ctx : Ctx) (del : StoreOutcome)
    (p : Geo.Position) (w : World) :
  hasGeolocation br = true ->
  let w' := exec (startSharing_resume br ctx del (succeededAt p)) w in
  watches w' = <[nextWatchId w := ctx]> (watchesAfterClear w)
  /\ watchIdRef (hook w') = Some (nextWatchId w)
  /\ isSharing (hook w') = true
  /\ driverLocations w' = driverLocations w
  /\ inflight w' = inflight w
  /\ effects w'
     = effects w
       ++ match watchIdRef (hook w) with
          | Some id => if refSet (Some id) then [ClearWatch id] else []
          | None => []
          end
       ++ [WatchPosition (nextWatchId w) watchOptions].
Proof.
  intros Hg. cbn zeta.
  unfold exec, startSharing_resume, startWatchingPosition, watchPosition, watchesAfterClear,
    bind, get, whenRef. cbn. rewrite Hg. cbn.
  destruct (watchIdRef (hook w)) as [id|]; cbn;
    [destruct (id =? 0); cbn |]; repeat split; rewrite ?app_nil_r, <- ?app_assoc; reflexivity.
Qed.

(** X5. A stop during which no other handler runs (whatever the store
    answers, and even with no user signed in) and the unmount cleanup
    leave no watch registered, so a position the device delivers right
    after is dropped: it changes nothing and issues no write.  That need
    not last: neither looks for a [startSharing] that is suspended at its
    [await startLocationSharing(...)].  When that await resumes with
    success, in a state [w1] that has the watches, the ref and the
    device's next id as the stop or the cleanup left them, the rest of
    [startSharing] registers a new watch under [watchIdRef] without any
    test of what happened meanwhile, and positions delivered to that
    watch issue writes again. *)
Theorem updates_end_at_stop_or_unmount_unless_start_pending
    (br : Browser) (w0 : World) (e : Event) (ctx : Ctx) (u : User) (del : StoreOutcome)
    (p p' : Geo.Position) (id : Z) :
  watchInvariant w0 ->
  endsWatching e ->
  hasGeolocation br = true ->
  user ctx = Some u ->
  let w := step br e w0 in
  (watches w = ∅ /\ step br (PositionDelivered id p') w = w)
  /\ (forall w1 : World,
        watches w1 = watches w ->
        watchIdRef (hook w1) = watchIdRef (hook w) ->
        nextWatchId w1 = nextWatchId w ->
        let w' := exec (startSharing_resume br ctx del (succeededAt p)) w1 in
        let w'' := step br (PositionDelivered (nextWatchId w) p') w' in
        watches w' = {[ nextWatchId w := ctx ]}
        /\ watchIdRef (hook w') = Some (nextWatchId w)
        /\ WatchPosition (nextWatchId w) watchOptions ∈ effects w'
        /\ inflight w'' = inflight w' ++ [(uid u, updateData p')]
        /\ effects w'' = effects w' ++ [SetDoc (uid u) true (updateData p')]).
Proof.
  intros Inv He Hg Hu. cbn zeta.
  set (w := step br e w0).
  assert (Hnone : watches w = ∅).
  { subst w. destruct e; try contradiction.
    - apply stopSharing_watches. exact Inv.
    - cbn [step]. destruct (unmount_watches w0) as (Hw & _).
      rewrite Hw. apply watchesAfterClear_empty. exact Inv. }
  split.
  { split; [exact Hnone |]. unfold step at 1. rewrite Hnone, lookup_empty. reflexivity. }
  intros w1 Hw1 Hr1 Hn1.
  destruct (resume_registers_watch br ctx del p w1 Hg) as (Hw' & Hr' & _ & _ & _ & He').
  assert (Hclear : watchesAfterClear w1 = ∅).
  { unfold watchesAfterClear. rewrite Hw1, Hnone.
    destruct (watchIdRef (hook w1)) as [i|]; [| reflexivity].
    destruct (refSet (Some i)); [apply delete_empty | reflexivity]. }
  rewrite Hclear, insert_empty, Hn1 in Hw'. rewrite Hn1 in Hr'.
  split; [exact Hw' |]. split; [exact Hr' |]. split.
  { rewrite He', Hn1, app_assoc. apply elem_of_app. right.
    apply list_elem_of_singleton. reflexivity. }
  assert (Hin : watches (exec (startSharing_resume br ctx del (succeededAt p)) w1)
                !! nextWatchId w = Some ctx).
  { rewrite Hw'. apply lookup_singleton_eq. }
  destruct (delivered_position_issues br _ (nextWatchId w) ctx u p' Hin Hu)
    as (Hi'' & He'' & _).
  split; [exact Hi'' | exact He''].
Qed.

Lemma updates_end_at_stop_or_unmount_unless_start_pending_witness :
  watchInvariant sharingWorld
  /\ endsWatching Unmounted
  /\ hasGeolocation desktop = true
  /\ user annCtx = Some ann
  /\ watches (step desktop Unmounted sharingWorld) = ∅
  /\ watches (exec (startSharing_resume desktop annCtx (Committed 0) (succeededAt P2))
                (step desktop Unmounted sharingWorld))
     = {[ nextWatchId (step desktop Unmounted sharingWorld) := annCtx ]}.
Proof.
  assert (Inv : watchInvariant sharingWorld).
  { unfold sharingWorld. apply run_watchInvariant, initial_watchInvariant. }
  split; [exact Inv |]. split; [exact I |]. split; [reflexivity |]. split; [reflexivity |].
  pose proof (updates_end_at_stop_or_unmount_unless_start_pending desktop sharingWorld
                Unmounted annCtx ann (Committed 0) P2 P3 1 Inv I eq_refl eq_refl) as H.
  cbn zeta in H. destruct H as ((Hnone & _) & Hresume).
  split; [exact Hnone |].
  exact (proj1 (Hresume _ eq_refl eq_refl eq_refl)).
Defined.

Ltac unfold_start :=
  unfold exec, result, startSharing, requestPermission, requestLocationPermission,
    startLocationSharing, getCurrentPosition, startWatchingPosition, watchPosition,
    isLocationAvailable, bind, get, whenRef.

Lemma startSharing_loading (br : Browser) (ctx : Ctx) (perm pos : Geo.Outcome)
    (wr del : StoreOutcome) (w : World) :
  loading (hook w) = false ->
  loading (hook (exec (startSharing br ctx perm pos wr del) w)) = false.
Proof.
  intros Hl. unfold_start.
  destruct (isDriver ctx), (isVerified ctx); cbn; auto.
  destruct (user ctx) as [u|]; cbn; auto.
  destruct (userProfile ctx) as [profile|]; cbn; auto.
  destruct (hasGeolocation br); cbn.
  2: { destruct (mustRequest (locationPermission (hook w))); cbn; auto. }
  destruct (mustRequest (locationPermission (hook w))); cbn.
  - destruct perm as [q | c0 m0]; cbn; auto.
    destruct pos as [p | c m]; cbn; auto.
    destruct wr as [t | m]; cbn; auto.
    destruct (watchIdRef (hook w)) as [id|]; cbn; [destruct (id =? 0); cbn |]; reflexivity.
  - destruct pos as [p | c m]; cbn; auto.
    destruct wr as [t | m]; cbn; auto.
    destruct (watchIdRef (hook w)) as [id|]; cbn; [destruct (id =? 0); cbn |]; reflexivity.
Qed.

Lemma stopSharing_loading (ctx : Ctx) (del : StoreOutcome) (w : World) :
  loading (hook (exec (stopSharing ctx del) w)) = false.
Proof.
  unfold exec, stopSharing, bind, get, whenRef. cbn.
  destruct (watchIdRef (hook w)) as [id|]; cbn; [destruct (id =? 0); cbn |];
    (destruct (updateIntervalRef (hook w)) as [j|]; cbn; [destruct (j =? 0); cbn |]);
    (destruct (user ctx) as [u|]; cbn; [destruct del; cbn |]); reflexivity.
Qed.

Lemma step_loading (br : Browser) (e : Event) (w : World) :
  loading (hook w) = false -> loading (hook (step br e w)) = false.
Proof.
  intros Hl.
  destruct e as [queried | state | ctx perm pos wr del | ctx del | ctx perm pos wr del
                 | id p | i o | id c msg del | ].
  - unfold step, exec, checkLocationPermission. cbn.
    destruct (isLocationAvailable br); [destruct queried |]; exact Hl.
  - exact Hl.
  - apply startSharing_loading. exact Hl.
  - apply stopSharing_loading.
  - cbn [step]. unfold toggleSharing. rewrite !exec_bind. cbn [result get fst exec snd].
    change (setError "" w).2 with (exec (setError "") w).
    destruct (isSharing (hook (exec (setError "") w))).
    + apply stopSharing_loading.
    + apply startSharing_loading. exact Hl.
  - cbn [step]. destruct (watches w !! id) as [ctx|]; [| exact Hl].
    unfold positionCallback_issue. destruct (user ctx) as [u|]; exact Hl.
  - cbn [step]. destruct (inflight w !! i) as [wr|]; [| exact Hl].
    destruct o; exact Hl.
  - cbn [step]. destruct (watches w !! id) as [ctx|]; [| exact Hl].
    rewrite watch_error_always_stops, exec_bind. apply stopSharing_loading.
  - unfold step, exec, unmountCleanup, bind, get, whenRef. cbn.
    destruct (watchIdRef (hook w)) as [id|]; cbn; [destruct (id =? 0); cbn |];
      (destruct (updateIntervalRef (hook w)) as [j|]; cbn; [destruct (j =? 0); cbn |]);
      exact Hl.
Qed.

(** X6. No handler leaves the loading flag set: once a start, a stop, a
    toggle or a permission request has run to its end, with whatever
    outcome, [loading] is false again. *)
Theorem loading_is_reset (br : Browser) (es : list Event) :
  loading (hook (run br es initialWorld)) = false
  /\ (forall w ctx del, loading (hook (exec (stopSharing ctx del) w)) = false)
  /\ (forall w perm, loading (hook (exec (requestPermission br perm) w)) = false).
Proof.
  split; [| split].
  - assert (H : forall w, loading (hook w) = false -> loading (hook (run br es w)) = false).
    { induction es as [|e es IH]; intros w Hl; [exact Hl |].
      cbn [run fold_left]. apply IH. apply step_loading. exact Hl. }
    apply H. reflexivity.
  - intros w ctx del. apply stopSharing_loading.
  - intros w perm. unfold exec, requestPermission, requestLocationPermission,
      getCurrentPosition, isLocationAvailable, bind. cbn.
    destruct (hasGeolocation br); cbn; [destruct perm; cbn |]; reflexivity.
Qed.

Lemma startSharing_success_store
    (br : Browser) (ctx : Ctx) (perm pos : Geo.Outcome) (wr del : StoreOutcome) (w : World) :
  success (result (startSharing br ctx perm pos wr del) w) = true ->
  exists u profile p t,
    user ctx = Some u /\ userProfile ctx = Some profile
    /\ pos = Geo.Ok p /\ wr = Committed t
    /\ driverLocations (exec (startSharing br ctx perm pos wr del) w)
       = <[uid u := commit t (locationData (uid u) (email u) (shareInfoOf profile) p)]>
           (driverLocations w).
Proof.
  unfold shareInfoOf. unfold_start.
  destruct (isDriver ctx), (isVerified ctx); cbn; try discriminate.
  destruct (user ctx) as [u|]; cbn; try discriminate.
  destruct (userProfile ctx) as [profile|]; cbn; try discriminate.
  destruct (hasGeolocation br); cbn.
  2: { destruct (mustRequest (locationPermission (hook w))); cbn; discriminate. }
  destruct (mustRequest (locationPermission (hook w))); cbn.
  - destruct perm as [q | c0 m0]; cbn; try discriminate.
    destruct pos as [p | c m]; cbn; try discriminate.
    destruct wr as [t | m]; cbn; try discriminate.
    destruct (watchIdRef (hook w)) as [id|]; cbn; [destruct (id =? 0); cbn |];
      (intros _; exists u, profile, p, t; auto 10).
  - destruct pos as [p | c m]; cbn; try discriminate.
    destruct wr as [t | m]; cbn; try discriminate.
    destruct (watchIdRef (hook w)) as [id|]; cbn; [destruct (id =? 0); cbn |];
      (intros _; exists u, profile, p, t; auto 10).
Qed.

(** X7. [startSharing] succeeds exactly when the caller is a verified
    driver with a user and a profile, the browser has geolocation, the
    permission request (made only when the permission state is neither
    granted nor unknown) and the position request succeed, and the store
    commits the record.  On success the record is the full-field document
    of the acquired position, the session is sharing at that position with
    no error, and a new watch is registered; on failure the store, the
    sharing flag, the position and accuracy the hook holds, the watches
    and the writes in flight are as before. *)
Theorem start_succeeds_exactly_when
    (br : Browser) (ctx : Ctx) (perm pos : Geo.Outcome) (wr del : StoreOutcome) (w : World) :
  let r := result (startSharing br ctx perm pos wr del) w in
  let w' := exec (startSharing br ctx perm pos wr del) w in
  success r = startSucceeds br ctx (locationPermission (hook w)) perm pos wr
  /\ (success r = false ->
      sameSession w w'
      /\ currentPosition (hook w') = currentPosition (hook w)
      /\ accuracy (hook w') = accuracy (hook w))
  /\ (success r = true ->
      exists u profile p t,
        user ctx = Some u /\ userProfile ctx = Some profile
        /\ pos = Geo.Ok p /\ wr = Committed t
        /\ driverLocations w'
           = <[uid u := commit t (locationData (uid u) (email u) (shareInfoOf profile) p)]>
               (driverLocations w)
        /\ isSharing (hook w') = true
        /\ currentPosition (hook w') = Some p
        /\ accuracy (hook w') = Some (Geo.accuracy (Geo.coords p))
        /\ error (hook w') = ""
        /\ watchIdRef (hook w') = Some (nextWatchId w)
        /\ watches w' !! nextWatchId w = Some ctx).
Proof.
  cbn zeta. unfold startSucceeds, sameSession, shareInfoOf. unfold_start.
  destruct (isDriver ctx), (isVerified ctx); cbn;
    try (split; [reflexivity |]; split; [auto 15 | discriminate]).
  destruct (user ctx) as [u|]; cbn;
    try (split; [reflexivity |]; split; [auto 15 | discriminate]).
  destruct (userProfile ctx) as [profile|]; cbn;
    try (split; [reflexivity |]; split; [auto 15 | discriminate]).
  destruct (hasGeolocation br); cbn.
  2: { destruct (mustRequest (locationPermission (hook w))); cbn;
         (split; [reflexivity |]; split; [auto 15 | discriminate]). }
  destruct (mustRequest (locationPermission (hook w))); cbn.
  - destruct perm as [q | c0 m0]; cbn;
      try (split; [reflexivity |]; split; [auto 15 | discriminate]).
    destruct pos as [p | c m]; cbn;
      try (split; [reflexivity |]; split; [auto 15 | discriminate]).
    destruct wr as [t | m]; cbn;
      try (split; [reflexivity |]; split; [auto 15 | discriminate]).
    destruct (watchIdRef (hook w)) as [id|]; cbn; [destruct (id =? 0); cbn |];
      (split; [reflexivity |]; split; [discriminate |]; intros _;
       exists u, profile, p, t; rewrite lookup_insert_eq; auto 15).
  - destruct pos as [p | c m]; cbn;
      try (split; [reflexivity |]; split; [auto 15 | discriminate]).
    destruct wr as [t | m]; cbn;
      try (split; [reflexivity |]; split; [auto 15 | discriminate]).
    destruct (watchIdRef (hook w)) as [id|]; cbn; [destruct (id =? 0); cbn |];
      (split; [reflexivity |]; split; [discriminate |]; intros _;
       exists u, profile, p, t; rewrite lookup_insert_eq; auto 15).
Qed.


(** X8. On a browser without geolocation a verified, signed-in driver's
    [startSharing] makes no call to the device or to the store and reports
    that geolocation is not supported; when the permission state made it
    request permission first, the state is turned to [denied]. *)
Theorem start_without_geolocation
    (br : Browser) (ctx : Ctx) (u : User) (profile : Profile)
    (perm pos : Geo.Outcome) (wr del : StoreOutcome) (w : World) :
  hasGeolocation br = false ->
  isDriver ctx = true -> isVerified ctx = true ->
  user ctx = Some u -> userProfile ctx = Some profile ->
  let r := result (startSharing br ctx perm pos wr del) w in
  let w' := exec (startSharing br ctx perm pos wr del) w in
  success r = false
  /\ res_error r = Some "Geolocation is not supported by this browser"
  /\ error (hook w') = "Geolocation is not supported by this browser"
  /\ effects w' = effects w
  /\ sameSession w w'
  /\ loading (hook w') = false
  /\ locationPermission (hook w')
     = (if mustRequest (locationPermission (hook w)) then "denied"
        else locationPermission (hook w))%string.
Proof.
  intros Hg Hd Hv Hu Hp. cbn zeta. unfold sameSession. unfold_start.
  rewrite Hd, Hv, Hu, Hp, Hg. cbn.
  destruct (mustRequest (locationPermission (hook w))); cbn; repeat split.
Qed.

Lemma start_without_geolocation_witness :
  hasGeolocation {| hasGeolocation := false; isMobile := true |} = false
  /\ effects (exec (startSharing {| hasGeolocation := false; isMobile := true |} annCtx
                      (Geo.Ok P1) (Geo.Ok P1) (Committed 100) (Committed 100))
                initialWorld) = [].
Proof.
  split; [reflexivity |].
  exact (proj1 (proj2 (proj2 (proj2
           (start_without_geolocation {| hasGeolocation := false; isMobile := true |} annCtx
              ann annProfile (Geo.Ok P1) (Geo.Ok P1) (Committed 100) (Committed 100)
              initialWorld eq_refl eq_refl eq_refl eq_refl eq_refl))))).
Defined.

(** X9. When the permission state is neither granted nor unknown and the
    position request that asks for permission fails, [startSharing] stops
    there: it has made that one request (no cached position, 15 s timeout on
    a mobile user agent, 10 s otherwise) and no other call, the permission
    state is [denied], and the error is the message for the device's code. *)
Theorem start_refused_permission
    (br : Browser) (ctx : Ctx) (u : User) (profile : Profile)
    (c : Z) (msg : string) (pos : Geo.Outcome) (wr del : StoreOutcome) (w : World) :
  hasGeolocation br = true ->
  isDriver ctx = true -> isVerified ctx = true ->
  user ctx = Some u -> userProfile ctx = Some profile ->
  mustRequest (locationPermission (hook w)) = true ->
  let r := result (startSharing br ctx (Geo.Failed c msg) pos wr del) w in
  let w' := exec (startSharing br ctx (Geo.Failed c msg) pos wr del) w in
  success r = false
  /\ effects w'
     = effects w
       ++ [GetCurrentPosition
             {| Geo.enableHighAccuracy := true;
                Geo.timeout := if isMobile br then 15000 else 10000;
                Geo.maximumAge := 0 |}]
  /\ locationPermission (hook w') = "denied"
  /\ error (hook w') = errorMessage (Geo.positionError c msg)
  /\ res_error r = Some (errorMessage (Geo.positionError c msg))
  /\ loading (hook w') = false
  /\ sameSession w w'.
Proof.
  intros Hg Hd Hv Hu Hp Hm. cbn zeta. unfold sameSession. unfold_start.
  rewrite Hd, Hv, Hu, Hp. cbn. rewrite Hm. cbn. rewrite Hg. cbn. repeat split.
Qed.

Lemma start_refused_permission_witness :
  mustRequest (locationPermission (hook (step desktop (PermissionChanged "prompt") initialWorld)))
  = true
  /\ error (hook (exec (startSharing desktop annCtx (Geo.Failed 1 "User denied Geolocation")
                          (Geo.Ok P1) (Committed 100) (Committed 100))
                    (step desktop (PermissionChanged "prompt") initialWorld)))
     = "Location access denied by user"%string.
Proof.
  split; [reflexivity |].
  exact (proj1 (proj2 (proj2 (proj2
           (start_refused_permission desktop annCtx ann annProfile 1 "User denied Geolocation"
              (Geo.Ok P1) (Committed 100) (Committed 100)
              (step desktop (PermissionChanged "prompt") initialWorld)
              eq_refl eq_refl eq_refl eq_refl eq_refl eq_refl))))).
Defined.

(** X10. A stop that fails, because nobody is signed in or because the
    store rejects the delete, has already cancelled the watch: the record
    and the sharing flag stay as they are and the failure is reported, but
    no position will update the record any more.  With nobody signed in no
    delete is sent at all. *)
Theorem failed_stop_cancels_watch_only
    (ctx : Ctx) (del : StoreOutcome) (w : World) :
  user ctx = None \/ isCommitted del = false ->
  let r := result (stopSharing ctx del) w in
  let w' := exec (stopSharing ctx del) w in
  success r = false
  /\ driverLocations w' = driverLocations w
  /\ isSharing (hook w') = isSharing (hook w)
  /\ currentPosition (hook w') = currentPosition (hook w)
  /\ watches w' = watchesAfterClear w
  /\ (forall id, watchIdRef (hook w) = Some id -> id <> 0 -> watches w' !! id = None)
  /\ loading (hook w') = false
  /\ error (hook w')
     = match user ctx, del with
       | None, _ => "Failed to stop location sharing"%string
       | Some _, Rejected msg => msg
       | Some _, Committed _ => ""%string
       end
  /\ effects w'
     = effects w ++ clearEffects (hook w)
       ++ match user ctx with
          | Some u => [DeleteDoc (uid u)]
          | None => []
          end.
Proof.
  intros Hfail. cbn zeta.
  assert (Hcase : (user ctx = None) \/ (exists u msg, user ctx = Some u /\ del = Rejected msg)).
  { destruct (user ctx) as [u|]; [| auto].
    destruct Hfail as [H | H]; [discriminate |].
    destruct del as [t | msg]; [discriminate |]. right. eauto. }
  clear Hfail.
  unfold exec, result, stopSharing, watchesAfterClear, clearEffects, bind, get, whenRef, refSet.
  cbn.
  destruct Hcase as [Hu | (u & msg & Hu & ->)]; rewrite Hu; cbn;
    (destruct (watchIdRef (hook w)) as [id|] eqn:Er; cbn; [destruct (id =? 0) eqn:E0; cbn |];
     (destruct (updateIntervalRef (hook w)) as [j|]; cbn; [destruct (j =? 0); cbn |]);
     rewrite <- ?app_assoc, ?app_nil_r; cbn;
     repeat split; auto;
     try (intros i [= <-] Hne; first [apply lookup_delete_eq
                                     | apply Z.eqb_eq in E0; contradiction]);
     try discriminate).
Qed.

Lemma failed_stop_cancels_watch_only_witness :
  isCommitted (Rejected "permission-denied") = false
  /\ isSharing (hook (exec (stopSharing annCtx (Rejected "permission-denied")) sharingWorld))
     = isSharing (hook sharingWorld)
  /\ error (hook (exec (stopSharing annCtx (Rejected "permission-denied")) sharingWorld))
     = "permission-denied"%string.
Proof.
  split; [reflexivity |].
  pose proof (failed_stop_cancels_watch_only annCtx (Rejected "permission-denied") sharingWorld
                (or_intror eq_refl)) as T.
  split; [exact (proj1 (proj2 (proj2 T))) |].
  exact (proj1 (proj2 (proj2 (proj2 (proj2 (proj2 (proj2 (proj2 T)))))))).
Defined.

(** X11. Stopping twice is as good as stopping once: a second
    [stopSharing] by the same user, whose delete of the now absent record
    the store accepts, succeeds and leaves the hook, the collection and the
    watches exactly as the first left them; it only sends one more delete. *)
Theorem stop_is_idempotent (ctx : Ctx) (u : User) (t1 t2 : Z) (w : World) :
  user ctx = Some u ->
  let w1 := exec (stopSharing ctx (Committed t1)) w in
  let w2 := exec (stopSharing ctx (Committed t2)) w1 in
  success (result (stopSharing ctx (Committed t2)) w1) = true
  /\ hook w2 = hook w1
  /\ driverLocations w2 = driverLocations w1
  /\ driverLocations w2 !! uid u = None
  /\ watches w2 = watches w1
  /\ inflight w2 = inflight w1
  /\ effects w2 = effects w1 ++ [DeleteDoc (uid u)].
Proof.
  intros Hu. cbn zeta.
  unfold exec, result, stopSharing, bind, get, whenRef, refSet. cbn. rewrite Hu. cbn.
  destruct (watchIdRef (hook w)) as [id|] eqn:Er; cbn; [destruct (id =? 0) eqn:E0; cbn |];
    (destruct (updateIntervalRef (hook w)) as [j|] eqn:Ej; cbn;
     [destruct (j =? 0) eqn:J0; cbn |]);
    repeat (progress (rewrite ?Er, ?Ej, ?E0, ?J0; cbn));
    repeat split; try apply delete_delete_eq; try apply lookup_delete_eq.
Qed.

Lemma stop_is_idempotent_witness :
  user annCtx = Some ann
  /\ hook (exec (stopSharing annCtx (Committed 201))
             (exec (stopSharing annCtx (Committed 200)) sharingWorld))
     = hook (exec (stopSharing annCtx (Committed 200)) sharingWorld).
Proof.
  split; [reflexivity |].
  exact (proj1 (proj2 (stop_is_idempotent annCtx ann 200 201 sharingWorld eq_refl))).
Defined.

(** X12. Not only a permission error: any error the device reports on the
    watch (position unavailable, timeout, any code) stops the session.  The
    error callback is handed an object without a code, so its test for the
    permission code always holds; the watch is cancelled, the record is
    deleted and the session ends not sharing, with the error text cleared. *)
Theorem any_watch_error_stops_sharing
    (br : Browser) (w : World) (id : Z) (ctx : Ctx) (u : User)
    (c : Z) (msg : string) (t : Z) :
  watches w !! id = Some ctx ->
  user ctx = Some u ->
  watchIdRef (hook w) = Some id ->
  id <> 0 ->
  let w' := step br (WatchFailed id c msg (Committed t)) w in
  watches w' !! id = None
  /\ driverLocations w' !! uid u = None
  /\ ClearWatch id ∈ effects w'
  /\ DeleteDoc (uid u) ∈ effects w'
  /\ isSharing (hook w') = false
  /\ watchIdRef (hook w') = None
  /\ currentPosition (hook w') = None
  /\ error (hook w') = ""%string.
Proof.
  intros Hw Hu Href Hid. cbn zeta. unfold step. rewrite Hw.
  rewrite watch_error_always_stops.
  unfold exec, stopSharing, bind, get, setError, setLoading, modifyHook, whenRef.
  cbn [hook watchIdRef updateIntervalRef fst snd].
  rewrite Href, Hu. unfold refSet.
  destruct (id =? 0) eqn:E; [apply Z.eqb_eq in E; contradiction |].
  cbn.
  destruct (updateIntervalRef (hook w)) as [j|]; cbn; [destruct (j =? 0); cbn |];
    rewrite ?elem_of_app, ?elem_of_cons;
    repeat split; try reflexivity; try apply lookup_delete_eq; auto 10.
Qed.

Lemma any_watch_error_stops_sharing_witness :
  watches sharingWorld !! 1 = Some annCtx
  /\ isSharing (hook (step desktop (WatchFailed 1 3 "Timeout expired" (Committed 200))
                         sharingWorld)) = false
  /\ driverLocations (step desktop (WatchFailed 1 3 "Timeout expired" (Committed 200))
                        sharingWorld) !! uid ann = None.
Proof.
  assert (Hw : watches sharingWorld !! 1 = Some annCtx) by (vm_compute; reflexivity).
  assert (Hid : (1 : Z) <> 0) by discriminate.
  pose proof (any_watch_error_stops_sharing desktop sharingWorld 1 annCtx ann 3
                "Timeout expired" 200 Hw eq_refl eq_refl Hid) as T.
  split; [exact Hw |].
  split; [exact (proj1 (proj2 (proj2 (proj2 (proj2 T))))) | exact (proj1 (proj2 T))].
Defined.

End SessionBehaviour.

(** ** Order and markers of the fleet *)

Section FleetOrder.
Import BusService BusMap Spec Examples.

Lemma insertByTime_perm (x : Bus) (l : list Bus) : insertByTime x l ≡ₚ x :: l.
Proof.
  induction l as [|y l IH]; simpl; [reflexivity |].
  destruct (sortKey y <=? sortKey x); [reflexivity |].
  rewrite IH. apply Permutation_swap.
Qed.

Lemma sortByTime_perm (l : list Bus) : sortByTime l ≡ₚ l.
Proof.
  induction l as [|x l IH]; simpl; [reflexivity |].
  rewrite insertByTime_perm, IH. reflexivity.
Qed.



Lemma insertByTime_filter_key (k : Z) (x : Bus) (l : list Bus) :
  filter (fun b => sortKey b = k) (insertByTime x l)
  = filter (fun b => sortKey b = k) (x :: l).
Proof.
  induction l as [|y l IH]; simpl; [reflexivity |].
  destruct (sortKey y <=? sortKey x) eqn:E; [reflexivity |].
  apply Z.leb_gt in E.
  rewrite (filter_cons _ y), IH, !(filter_cons _ x), (filter_cons _ y).
  destruct (decide (sortKey y = k)), (decide (sortKey x = k)); try reflexivity. lia.
Qed.

Lemma sortByTime_filter_key (k : Z) (l : list Bus) :
  filter (fun b => sortKey b = k) (sortByTime l) = filter (fun b => sortKey b = k) l.
Proof.
  induction l as [|x l IH]; simpl; [reflexivity |].
  rewrite insertByTime_filter_key, !(filter_cons _ x), IH. reflexivity.
Qed.



(** X14. The sort is stable: buses with the same time stay in the order of
    the snapshot. *)
Theorem subscription_order_is_stable (now k : Z) (docs : list Bus) :
  filter (fun b => hasCoordinates b = true) docs <> [] ->
  filter (fun b => sortKey b = k) (subscribeToBusLocations now (Snapshot docs))
  = filter (fun b => sortKey b = k) (filter (fun b => hasCoordinates b = true) docs).
Proof.
  intros Hne. cbn [subscribeToBusLocations]. unfold onSnapshot.
  destruct (filter (fun b => hasCoordinates b = true) docs) as [|b l] eqn:E;
    [contradiction |].
  apply sortByTime_filter_key.
Qed.

Lemma subscription_order_is_stable_witness :
  filter (fun b => hasCoordinates b = true)
    [busAt "a" (deg 1) (deg 1); busAt "b" (deg 2) (deg 2)] <> []
  /\ filter (fun b => sortKey b = 0)
       (subscribeToBusLocations 0
          (Snapshot [busAt "a" (deg 1) (deg 1); busAt "b" (deg 2) (deg 2)]))
     = [busAt "a" (deg 1) (deg 1); busAt "b" (deg 2) (deg 2)].
Proof.
  assert (H : filter (fun b => hasCoordinates b = true)
                [busAt "a" (deg 1) (deg 1); busAt "b" (deg 2) (deg 2)] <> [])
    by (vm_compute; discriminate).
  split; [exact H |].
  rewrite (subscription_order_is_stable 0 0 _ H). reflexivity.
Defined.

(** X15. Whatever the subscription delivers, a snapshot or an error, the
    list it hands to the callback is never empty and every bus in it has
    coordinates, so every delivered bus gets a marker on the map. *)
Theorem every_delivered_bus_gets_a_marker (now : Z) (d : Delivery) :
  let out := subscribeToBusLocations now d in
  out <> []
  /\ Forall (fun b => hasCoordinates b = true) out
  /\ Forall (fun b => busMarker b
                      = Some {| key := ("bus-" ++ bus_id b)%string;
                                position := (bus_latitude b, bus_longitude b);
                                icon := createBusIcon (bus_status b) |}) out
  /\ length (omap busMarker out) = length out.
Proof.
  cbn zeta.
  assert (Hvalid : Forall (fun b => hasCoordinates b = true) (subscribeToBusLocations now d)).
  { destruct d as [docs | m]; cbn [subscribeToBusLocations].
    - apply Forall_forall. intros b Hb.
      eapply onSnapshot_has_coordinates; exact Hb.
    - repeat constructor. }
  assert (Hmark : forall b, hasCoordinates b = true ->
            busMarker b = Some {| key := ("bus-" ++ bus_id b)%string;
                                  position := (bus_latitude b, bus_longitude b);
                                  icon := createBusIcon (bus_status b) |}).
  { intros b Hb. unfold hasCoordinates in Hb. apply andb_true_iff in Hb as [H1 H2].
    unfold busMarker. rewrite H1, H2. reflexivity. }
  split.
  { destruct d as [docs | m]; cbn [subscribeToBusLocations]; [| discriminate].
    unfold onSnapshot.
    destruct (filter (fun b => hasCoordinates b = true) docs) as [|b l] eqn:E;
      [discriminate |].
    intros H. apply (f_equal length) in H. rewrite sortByTime_perm in H. discriminate. }
  split; [exact Hvalid |]. split.
  - eapply Forall_impl; [exact Hvalid |]. exact Hmark.
  - induction Hvalid as [|b l Hb _ IH]; [reflexivity |].
    cbn [omap list_omap]. rewrite (Hmark b Hb). cbn. f_equal. exact IH.
Qed.

End FleetOrder.

(** ** The viewpoint and the markers *)

Section Viewpoint.
Import BusService BusMap Spec Examples.

(** X18. The entities that get a marker are the ones the viewpoint
    averages, in the same order and at the same coordinates: the bus
    markers first, then the driver markers. *)
Theorem markers_are_the_averaged_locations
    (now : Z) (buses : list Bus) (drivers : list Driver) :
  position <$> omap id (markers now buses drivers)
  = (fun loc => (latitude loc, longitude loc)) <$> allLocations buses drivers.
Proof.
  unfold markers, allLocations. rewrite omap_app, !fmap_app. f_equal.
  - induction buses as [|b l IH]; [reflexivity |].
    cbn [fmap list_fmap omap list_omap].
    destruct (hasCoordinates b) eqn:Hb.
    + rewrite filter_cons_True by exact Hb.
      unfold hasCoordinates in Hb. apply andb_true_iff in Hb as [H1 H2].
      unfold busMarker at 1. rewrite H1, H2. cbn. f_equal. exact IH.
    + rewrite filter_cons_False by congruence.
      unfold hasCoordinates in Hb. unfold busMarker at 1.
      destruct (Js.truthy (bus_latitude b)), (Js.truthy (bus_longitude b));
        try discriminate; exact IH.
  - induction drivers as [|d l IH]; [reflexivity |].
    cbn [fmap list_fmap omap list_omap].
    destruct (driverHasCoordinates d) eqn:Hd.
    + rewrite filter_cons_True by exact Hd.
      unfold driverHasCoordinates in Hd. apply andb_true_iff in Hd as [H1 H2].
      unfold driverMarker at 1. rewrite H1, H2. cbn. f_equal. exact IH.
    + rewrite filter_cons_False by congruence.
      unfold driverHasCoordinates in Hd. unfold driverMarker at 1.
      destruct (Js.truthy (drv_latitude d)), (Js.truthy (drv_longitude d));
        try discriminate; exact IH.
Qed.

End Viewpoint.

(** ** Selection, focus and the route guard *)

Section SelectionAndRoute.
Import BusService BusMap Selection Examples.

Lemma act_exclusive (a : Action) (s : State) :
  selectedBus s = None \/ selectedDriver s = None ->
  selectedBus (act a s) = None \/ selectedDriver (act a s) = None.
Proof. destruct a; cbn; auto. Qed.

Lemma runActions_snoc (actions : list Action) (a : Action) (s : State) :
  runActions (actions ++ [a]) s = act a (runActions actions s).
Proof. unfold runActions. rewrite fold_left_app. reflexivity. Qed.

Lemma runActions_exclusive (actions : list Action) :
  selectedBus (runActions actions initialState) = None
  \/ selectedDriver (runActions actions initialState) = None.
Proof.
  induction actions as [|a actions IH] using rev_ind; [left; reflexivity |].
  rewrite runActions_snoc. apply act_exclusive. exact IH.
Qed.

(** X19. The selection is exclusive: after any sequence of selections,
    closings, sidebar toggles and resizes, a bus and a driver are never
    selected together.  Selecting a driver while a bus is selected leaves
    the driver alone selected, closing the panel leaves nothing selected,
    and on a mobile window a selection closes the sidebar. *)
Theorem selection_is_exclusive (actions : list Action) :
  let s := runActions actions initialState in
  (selectedBus s = None \/ selectedDriver s = None)
  /\ (forall d, selectedBus (act (SelectDriver d) s) = None
                /\ selectedDriver (act (SelectDriver d) s) = d)
  /\ (forall b, selectedDriver (act (SelectBus b) s) = None
                /\ selectedBus (act (SelectBus b) s) = b)
  /\ (selectedBus (act CloseInfoPanel s) = None
      /\ selectedDriver (act CloseInfoPanel s) = None)
  /\ (forall b d, isMobile s = true ->
        sidebarOpen (act (SelectBus b) s) = false
        /\ sidebarOpen (act (SelectDriver d) s) = false).
Proof.
  cbn zeta. split; [exact (runActions_exclusive actions) |].
  split; [intros d; split; reflexivity |].
  split; [intros b; split; reflexivity |].
  split; [split; reflexivity |].
  intros b d Hm. cbn. rewrite Hm. split; reflexivity.
Qed.

(** X20. The map is only ever told to move to the selected entity, at
    zoom 15, and only when both its coordinates are valid: whatever the
    sequence of actions, at most one of the two focus effects makes a call,
    and a selected entity whose latitude or longitude is zero or missing
    gets none. *)
Theorem focus_follows_valid_selection (actions : list Action) :
  let s := runActions actions initialState in
  (busFocus (selectedBus s) = None \/ driverFocus (selectedDriver s) = None)
  /\ (forall v, busFocus (selectedBus s) = Some v ->
        exists bus, selectedBus s = Some bus
                    /\ hasCoordinates bus = true
                    /\ v = {| center := (bus_latitude bus, bus_longitude bus); zoom := 15 |})
  /\ (forall v, driverFocus (selectedDriver s) = Some v ->
        exists driver, selectedDriver s = Some driver
                       /\ driverHasCoordinates driver = true
                       /\ v = {| center := (drv_latitude driver, drv_longitude driver);
                                 zoom := 15 |})
  /\ (forall bus, hasCoordinates bus = false ->
        busFocus (selectedBus (act (SelectBus (Some bus)) s)) = None
        /\ driverFocus (selectedDriver (act (SelectBus (Some bus)) s)) = None)
  /\ (forall driver, driverHasCoordinates driver = false ->
        driverFocus (selectedDriver (act (SelectDriver (Some driver)) s)) = None
        /\ busFocus (selectedBus (act (SelectDriver (Some driver)) s)) = None).
Proof.
  cbn zeta.
  destruct (runActions_exclusive actions) as [Hb | Hd].
  all: set (s := runActions actions initialState) in *.
  all: split; [rewrite ?Hb, ?Hd; cbn; auto |].
  all: split; [intros v Hv; unfold busFocus in Hv;
               destruct (selectedBus s) as [bus|]; [| discriminate];
               exists bus; unfold hasCoordinates;
               destruct (Js.truthy (bus_latitude bus) && Js.truthy (bus_longitude bus));
               [injection Hv as <-; auto | discriminate] |].
  all: split; [intros v Hv; unfold driverFocus in Hv;
               destruct (selectedDriver s) as [driver|]; [| discriminate];
               exists driver; unfold driverHasCoordinates;
               destruct (Js.truthy (drv_latitude driver) && Js.truthy (drv_longitude driver));
               [injection Hv as <-; auto | discriminate] |].
  all: split; [intros bus Hbus; cbn; unfold hasCoordinates in Hbus; rewrite Hbus; auto
              | intros driver Hdrv; cbn; unfold driverHasCoordinates in Hdrv;
                rewrite Hdrv; auto].
Qed.

(** X21. The route guard shows the protected content exactly when the
    authentication state is settled, a user is signed in and has a profile,
    and the user is verified or is not pending.  It never shows it without
    a user; a signed-in user who is neither verified nor pending is let
    through. *)
Theorem route_guard_cases (i : Route.Input) :
  (Route.ProtectedRoute i = Route.Children
   <-> Route.initialized i = true /\ Route.loading i = false /\ Route.roleLoading i = false
       /\ is_Some (Route.user i) /\ is_Some (Route.userProfile i)
       /\ (Route.isVerified i = true \/ Route.isPending i = false))
  /\ (Route.user i = None -> Route.ProtectedRoute i <> Route.Children)
  /\ (Route.ProtectedRoute i = Route.PendingVerification
      <-> Route.initialized i = true /\ Route.loading i = false /\ Route.roleLoading i = false
          /\ is_Some (Route.user i)
          /\ Route.isVerified i = false /\ Route.isPending i = true)
  /\ (Route.ProtectedRoute i = Route.AuthPage
      <-> Route.initialized i = true /\ Route.loading i = false /\ Route.roleLoading i = false
          /\ Route.user i = None).
Proof.
  unfold Route.ProtectedRoute.
  destruct (Route.initialized i), (Route.loading i), (Route.roleLoading i),
    (Route.user i) as [u|], (Route.userProfile i) as [p|],
    (Route.isVerified i), (Route.isPending i); cbn.
  all: repeat split; try discriminate; try tauto; try (intros; eauto; fail).
  all: try (intros (? & ? & ? & ? & ? & ?); try discriminate;
            repeat match goal with
                   | H : is_Some None |- _ => destruct H; discriminate
                   | H : _ \/ _ |- _ => destruct H; discriminate
                   end).
  all: try (intros (? & ? & ? & ? & ?); try discriminate;
            repeat match goal with
                   | H : is_Some None |- _ => destruct H; discriminate
                   end).
  all: try (intros (? & ? & ? & ?); discriminate).
Qed.

End SelectionAndRoute.

(** ** Time labels *)

Section TimeLabels.
Import BusService BusMap Display Examples.

Lemma formatLastUpdated_at (toLocaleDateString : option Z -> string) (fallback : option Z)
    (now date : Z) (ts : TimeValue) :
  dateOf fallback ts = Some date ->
  formatLastUpdated toLocaleDateString fallback now (Some ts)
  = if (now - date) / 60000 <? 1 then "Just now"%string
    else if (now - date) / 60000 <? 60 then (pretty ((now - date) / 60000) ++ "m ago")%string
    else if (now - date) / 3600000 <? 24
         then (pretty ((now - date) / 3600000) ++ "h ago")%string
         else toLocaleDateString (Some date).
Proof.
  intros Hd. unfold formatLastUpdated. rewrite Hd. cbn zeta.
  rewrite Z.div_div by lia. reflexivity.
Qed.

Lemma label_minutes (toLocaleDateString : option Z -> string) (fallback : option Z)
    (now date : Z) (ts : TimeValue) :
  dateOf fallback ts = Some date ->
  60000 <= now - date < 3600000 ->
  formatLastUpdated toLocaleDateString fallback now (Some ts)
  = (pretty ((now - date) / 60000) ++ "m ago")%string
  /\ 1 <= (now - date) / 60000 < 60.
Proof.
  intros Hd H. rewrite (formatLastUpdated_at _ _ _ _ _ Hd).
  assert (H1 : 1 <= (now - date) / 60000) by (apply Z.div_le_lower_bound; lia).
  assert (H2 : (now - date) / 60000 < 60) by (apply Z.div_lt_upper_bound; lia).
  assert (E1 : ((now - date) / 60000 <? 1) = false) by (apply Z.ltb_ge; lia).
  assert (E2 : ((now - date) / 60000 <? 60) = true) by (apply Z.ltb_lt; lia).
  rewrite E1, E2. auto.
Qed.

Lemma label_hours (toLocaleDateString : option Z -> string) (fallback : option Z)
    (now date : Z) (ts : TimeValue) :
  dateOf fallback ts = Some date ->
  3600000 <= now - date < 86400000 ->
  formatLastUpdated toLocaleDateString fallback now (Some ts)
  = (pretty ((now - date) / 3600000) ++ "h ago")%string
  /\ 1 <= (now - date) / 3600000 < 24.
Proof.
  intros Hd H. rewrite (formatLastUpdated_at _ _ _ _ _ Hd).
  assert (H0 : 60 <= (now - date) / 60000) by (apply Z.div_le_lower_bound; lia).
  assert (H1 : 1 <= (now - date) / 3600000) by (apply Z.div_le_lower_bound; lia).
  assert (H2 : (now - date) / 3600000 < 24) by (apply Z.div_lt_upper_bound; lia).
  assert (E1 : ((now - date) / 60000 <? 1) = false) by (apply Z.ltb_ge; lia).
  assert (E2 : ((now - date) / 60000 <? 60) = false) by (apply Z.ltb_ge; lia).
  assert (E3 : ((now - date) / 3600000 <? 24) = true) by (apply Z.ltb_lt; lia).
  rewrite E1, E2, E3. auto.
Qed.

Lemma label_date (toLocaleDateString : option Z -> string) (fallback : option Z)
    (now date : Z) (ts : TimeValue) :
  dateOf fallback ts = Some date ->
  86400000 <= now - date ->
  formatLastUpdated toLocaleDateString fallback now (Some ts) = toLocaleDateString (Some date).
Proof.
  intros Hd H. rewrite (formatLastUpdated_at _ _ _ _ _ Hd).
  assert (H0 : 60 <= (now - date) / 60000) by (apply Z.div_le_lower_bound; lia).
  assert (H1 : 24 <= (now - date) / 3600000) by (apply Z.div_le_lower_bound; lia).
  assert (E1 : ((now - date) / 60000 <? 1) = false) by (apply Z.ltb_ge; lia).
  assert (E2 : ((now - date) / 60000 <? 60) = false) by (apply Z.ltb_ge; lia).
  assert (E3 : ((now - date) / 3600000 <? 24) = false) by (apply Z.ltb_ge; lia).
  rewrite E1, E2, E3. reflexivity.
Qed.

(** X22. The label of a time that lies [d] milliseconds back: under one
    minute, and for a time in the future, it is "Just now"; from one minute
    up to an hour it counts whole minutes, from one hour up to a day whole
    hours, and from a day on it is the date.  No time gives "Unknown". *)
Theorem last_updated_label_ranges
    (toLocaleDateString : option Z -> string) (fallback : option Z)
    (now date : Z) (ts : TimeValue) :
  dateOf fallback ts = Some date ->
  let d := now - date in
  let label := formatLastUpdated toLocaleDateString fallback now (Some ts) in
  (d < 60000 -> label = "Just now"%string)
  /\ (60000 <= d < 3600000 ->
      label = (pretty (d / 60000) ++ "m ago")%string /\ 1 <= d / 60000 < 60)
  /\ (3600000 <= d < 86400000 ->
      label = (pretty (d / 3600000) ++ "h ago")%string /\ 1 <= d / 3600000 < 24)
  /\ (86400000 <= d -> label = toLocaleDateString (Some date))
  /\ formatLastUpdated toLocaleDateString fallback now None = "Unknown"%string.
Proof.
  intros Hd. cbn zeta. split; [| split; [| split; [| split]]].
  - intros H. rewrite (formatLastUpdated_at _ _ _ _ _ Hd).
    assert (E : ((now - date) / 60000 <? 1) = true)
      by (apply Z.ltb_lt; apply Z.div_lt_upper_bound; lia).
    rewrite E. reflexivity.
  - intros H. exact (label_minutes toLocaleDateString fallback now date ts Hd H).
  - intros H. exact (label_hours toLocaleDateString fallback now date ts Hd H).
  - intros H. exact (label_date toLocaleDateString fallback now date ts Hd H).
  - reflexivity.
Qed.


Lemma last_updated_label_ranges_witness :
  dateOf None (StoreTimestamp 1000) = Some 1000000
  /\ formatLastUpdated (fun _ => "a date"%string) None 4599999 (Some (StoreTimestamp 1000))
     = "59m ago"%string
  /\ formatLastUpdated (fun _ => "a date"%string) None 4600000 (Some (StoreTimestamp 1000))
     = "1h ago"%string.
Proof.
  split; [reflexivity |]. split.
  - rewrite (proj1 (proj1 (proj2 (last_updated_label_ranges (fun _ => "a date"%string) None
                                    4599999 1000000 (StoreTimestamp 1000) eq_refl))
                            ltac:(lia))).
    vm_compute. reflexivity.
  - rewrite (proj1 (proj1 (proj2 (proj2 (last_updated_label_ranges (fun _ => "a date"%string)
                                           None 4600000 1000000 (StoreTimestamp 1000) eq_refl)))
                            ltac:(lia))).
    vm_compute. reflexivity.
Defined.



End TimeLabels.

(** ** From the session to the riders' map *)

Section SessionToMap.
Import Sharing Presence Records SessionFacts Schedule BusMap Examples Samples.

(** X24. Once a stop by a signed-in driver has its delete committed, the
    listener lists no entry for that driver, whatever the collection held
    before, and lists every other driver exactly as before. *)
Theorem stopped_driver_is_not_listed (ctx : Ctx) (u : User) (t : Z) (w : World) (d : Driver) :
  user ctx = Some u ->
  d ∈ listenToDriverLocations (driverLocations (exec (stopSharing ctx (Committed t)) w))
  <-> d ∈ listenToDriverLocations (driverLocations w) /\ drv_id d <> uid u.
Proof.
  intros Hu.
  destruct (stopSharing_summary ctx (Committed t) w) as (_ & _ & _ & _ & Hcase).
  rewrite Hu in Hcase. destruct Hcase as [Hs _]. rewrite Hs.
  rewrite !elem_of_listenToDriverLocations. split.
  - intros (id & doc & Hdoc & Hact & ->).
    apply lookup_delete_Some in Hdoc as [Hne Hdoc]. split.
    + exists id, doc. auto.
    + cbn. congruence.
  - intros [(id & doc & Hdoc & Hact & ->) Hne]. cbn in Hne.
    exists id, doc. split; [| auto].
    apply lookup_delete_Some. split; [congruence | exact Hdoc].
Qed.

Lemma stopped_driver_is_not_listed_witness :
  user annCtx = Some ann
  /\ forall t d,
       d ∈ listenToDriverLocations (driverLocations (exec (stopSharing annCtx (Committed t))
                                                       namedWorld))
       <-> d ∈ listenToDriverLocations (driverLocations namedWorld) /\ drv_id d <> uid ann.
Proof.
  split; [reflexivity |].
  intros t d. exact (stopped_driver_is_not_listed annCtx ann t namedWorld d eq_refl).
Defined.

(** X25. After a successful start the listener shows the driver at the
    acquired position, with the time the store assigned, and with the
    profile's name, bus number and route, or "Driver", "Unknown" and
    "Unknown Route" where the profile has none. *)
Theorem started_driver_is_listed
    (br : Browser) (ctx : Ctx) (perm pos : Geo.Outcome) (wr del : StoreOutcome) (w : World) :
  success (result (startSharing br ctx perm pos wr del) w) = true ->
  exists u profile p t,
    user ctx = Some u /\ userProfile ctx = Some profile
    /\ pos = Geo.Ok p /\ wr = Committed t
    /\ {| drv_id := uid u;
          drv_displayName := Some (Js.strOr (displayName profile) "Driver");
          drv_busNumber := Some (Js.strOr (driverInfo profile ≫= busNumber) "Unknown");
          drv_route := Some (Js.strOr (driverInfo profile ≫= route) "Unknown Route");
          drv_latitude := Js.Num (Geo.latitude (Geo.coords p));
          drv_longitude := Js.Num (Geo.longitude (Geo.coords p));
          drv_timestamp := Some t;
          drv_lastSeen := Some t |}
       ∈ listenToDriverLocations
           (driverLocations (exec (startSharing br ctx perm pos wr del) w)).
Proof.
  intros Hok.
  destruct (startSharing_success_store br ctx perm pos wr del w Hok)
    as (u & profile & p & t & Hu & Hp & Hpos & Hwr & Hst).
  exists u, profile, p, t. repeat (split; [assumption |]).
  apply elem_of_listenToDriverLocations.
  exists (uid u), (commit t (locationData (uid u) (email u) (shareInfoOf profile) p)).
  split; [rewrite Hst; apply lookup_insert_eq |]. split.
  - apply created_doc_committed.
  - unfold driverOfDoc, stringField, numberField, timeField.
    rewrite !commit_lookup. reflexivity.
Qed.

Lemma started_driver_is_listed_witness :
  success (result (startSharing desktop annCtx (Geo.Ok P1) (Geo.Ok P1) (Committed 100)
                     (Committed 100)) initialWorld) = true
  /\ exists d, d ∈ listenToDriverLocations
                     (driverLocations
                        (exec (startSharing desktop annCtx (Geo.Ok P1) (Geo.Ok P1)
                                 (Committed 100) (Committed 100)) initialWorld))
               /\ drv_id d = uid ann.
Proof.
  assert (H : success (result (startSharing desktop annCtx (Geo.Ok P1) (Geo.Ok P1)
                                 (Committed 100) (Committed 100)) initialWorld) = true)
    by (vm_compute; reflexivity).
  split; [exact H |].
  destruct (started_driver_is_listed desktop annCtx (Geo.Ok P1) (Geo.Ok P1) (Committed 100)
              (Committed 100) initialWorld H)
    as (u & profile & p & t & Hu & _ & _ & _ & Hin).
  eexists. split; [exact Hin |]. cbn. injection Hu as <-. reflexivity.
Defined.

End SessionToMap.
